(** * Verification of the tutorial pipeline and its sample sources

    This development embeds

    - [scripts/generate-article-outputs.sh]: the pipeline that runs every
      notebook cell through [runme], captures its output, records the
      environment and snapshots the project after each tutorial part;
    - the [reset-workspace] cell of the tutorial notebook, as captured in
      [.tutorial-snapshots/01-v1-manual/src/specs/user-registration.feature];
    - [src/sample-sources/event-store.ts]: the [EventStore] sample class;
    - the [UserService] sample class written by the notebook's
      [create-user-service-final] cell.

    The shell script is modelled as a list of statements run under
    [set -euo pipefail]: each statement returns an exit status and a new
    world; a non-zero status of a statement that is not exempt from
    [errexit] aborts the script with that status.  The file system is a
    finite map from project-relative paths (lists of path components) to
    entries.  The notebook cells are executed by the external [runme] tool:
    in the pipeline they are an opaque parameter of the model. *)

From Stdlib Require Import ZArith Ascii String Sorting.Sorted OrderedTypeEx.
From stdpp Require Import base gmap list strings sorting.

Local Open Scope Z_scope.

(* ------------------------------------------------------------------ *)
(** ** File system, world and statements *)
(* ------------------------------------------------------------------ *)

Module Pipeline.

Abbreviation path := (list string).

(** A file with its contents, or a directory. *)
Inductive entry := File (contents : string) | Dir.

#[global] Instance entry_eq_dec : EqDecision entry.
Proof. solve_decision. Defined.

(** Marks recorded when a statement completes: the Step Runner invoked on a
    cell, the Environment Recorder, a finished snapshot. *)
Inductive event := ECell (cell : string) | EEnv | ESnap (label : string).

#[global] Instance event_eq_dec : EqDecision event.
Proof. solve_decision. Defined.

(** The world the script runs in: the project directory (the script does
    [cd "$PROJECT_DIR"] first, so every path is relative to it), the log of
    completed steps, and what the external tools report. *)
Record world := mkWorld {
  w_fs : gmap path entry;
  w_log : list event;
  w_date : string;            (* date -u +%Y-%m-%d *)
  w_node : option string;     (* node --version; None: node is not installed *)
  w_npm : option string;      (* npm --version; None: npm is not installed *)
  w_uname_s : string;         (* uname -s *)
  w_uname_r : string;         (* uname -r *)
  w_xfrm : string -> string   (* strxfrm of the collation of the caller's locale
                                 (LC_ALL, LC_COLLATE, LANG; the script sets none) *)
}.

Definition set_fs (w : world) (f : gmap path entry) : world :=
  mkWorld f (w_log w) (w_date w) (w_node w) (w_npm w) (w_uname_s w) (w_uname_r w) (w_xfrm w).

Definition add_log (w : world) (ev : list event) : world :=
  mkWorld (w_fs w) (w_log w ++ ev) (w_date w) (w_node w) (w_npm w)
    (w_uname_s w) (w_uname_r w) (w_xfrm w).

(** A statement of the script: its effect with its exit status, and the
    marks logged when it completes with status 0. *)
Record step := Step {
  exec : world -> Z * world;
  marks : list event
}.

Inductive outcome := Done (w : world) | Aborted (code : Z) (w : world).

(** [set -e]: the first statement that fails ends the script with its
    status. *)
Fixpoint run_steps (ss : list step) (w : world) : outcome :=
  match ss with
  | [] => Done w
  | s :: ss' =>
      let '(st, w') := exec s w in
      if Z.eqb st 0 then run_steps ss' (add_log w' (marks s)) else Aborted st w'
  end.

Definition exit_code (o : outcome) : Z :=
  match o with Done _ => 0 | Aborted c _ => c end.

Definition final_world (o : outcome) : world :=
  match o with Done w => w | Aborted _ w => w end.

(** ** Paths of the script *)

(** [SCRIPT_DIR] is [scripts/]; [OUT="$SCRIPT_DIR/outputs"]. *)
Definition SCRIPT_DIR : path := ["scripts"].
Definition OUT : path := ["scripts"; "outputs"].
Definition SNAPS : path := OUT ++ ["snapshots"].
Definition ENVF : path := OUT ++ ["environment.txt"].
Definition cell_file (cell : string) : path := OUT ++ [cell +:+ ".txt"].
Definition snap_dir (label : string) : path := SNAPS ++ [label].

(** The manifest of the installed dependency, read by [capture_environment]. *)
Definition DEP_MANIFEST : path :=
  ["node_modules"; "@libar-dev"; "delivery-process"; "package.json"].

(** ** File-system commands *)

Definition is_dir (f : gmap path entry) (p : path) : bool :=
  match f !! p with Some Dir => true | _ => false end.

Definition is_file (f : gmap path entry) (p : path) : bool :=
  match f !! p with Some (File _) => true | _ => false end.

(** A redirection [> dir/name] can open its target when [dir] is a
    directory and [dir/name] is not one. *)
Definition can_write (f : gmap path entry) (dir : path) (name : string) : bool :=
  is_dir f dir && negb (is_dir f (dir ++ [name])).

(** [rm -rf p]: removes [p] and everything below it. *)
Definition rm_rf (p : path) (f : gmap path entry) : gmap path entry :=
  filter (fun kv : path * entry => ¬ p `prefix_of` kv.1) f.

(** [mkdir -p]: creates every missing ancestor; fails when one of them is
    a regular file. *)
Fixpoint mkdir_p_go (base rest : path) (f : gmap path entry) : option (gmap path entry) :=
  match rest with
  | [] => Some f
  | x :: r =>
      let q := base ++ [x] in
      match f !! q with
      | Some (File _) => None
      | _ => mkdir_p_go q r (<[q := Dir]> f)
      end
  end.

Definition mkdir_p (p : path) (f : gmap path entry) : Z * gmap path entry :=
  match mkdir_p_go [] p f with Some f' => (0, f') | None => (1, f) end.

(** Recursive copy of the tree at [src] to [dst]: every entry whose path
    starts with [src] is copied to the same relative place under [dst]. *)
Definition copy_tree (src dst : path) (f : gmap path entry) : gmap path entry :=
  foldr (fun kv acc =>
           if decide (src `prefix_of` kv.1)
           then <[dst ++ drop (length src) kv.1 := kv.2]> acc else acc)
        f (map_to_list f).

(** [cp -r name/ dst/]: when [dst] already is a directory the tree lands in
    [dst/name], otherwise [dst] is created as the copy. *)
Definition cp_r (name : string) (dst : path) (f : gmap path entry) : Z * gmap path entry :=
  match f !! [name] with
  | Some Dir =>
      let d := if is_dir f dst then dst ++ [name] else dst in
      (0, copy_tree [name] d f)
  | _ => (1, f)
  end.

(** [cp name dstdir/]: copies a regular file into a directory. *)
Definition cp_file (name : string) (dstdir : path) (f : gmap path entry) : Z * gmap path entry :=
  match f !! [name] with
  | Some (File c) => if is_dir f dstdir then (0, <[dstdir ++ [name] := File c]> f) else (1, f)
  | _ => (1, f)
  end.

(** ** Text helpers *)

Definition nl_char : ascii := ascii_of_nat 10.
Definition NL : string := String nl_char EmptyString.


(** Command substitution [$(...)] removes every trailing newline. *)
Fixpoint strip_nl (s : string) : string :=
  match s with
  | EmptyString => EmptyString
  | String c s' =>
      let r := strip_nl s' in
      if Ascii.eqb c nl_char && String.eqb r "" then "" else String c r
  end.

(** One path per line, each terminated by a newline. *)
Fixpoint unlines (l : list string) : string :=
  match l with [] => "" | x :: l' => x +:+ NL +:+ unlines l' end.

(** How [sort] reads its input: lines split at newlines, a final line
    without newline still counts. *)
Fixpoint lines_go (cur s : string) : list string :=
  match s with
  | EmptyString => if String.eqb cur "" then [] else [cur]
  | String c s' =>
      if Ascii.eqb c nl_char then cur :: lines_go "" s'
      else lines_go (cur +:+ String c EmptyString) s'
  end.

Definition lines (s : string) : list string := lines_go "" s.

(** The order of [sort] with no options.  GNU [sort] compares two lines
    with [strcoll] of the caller's locale and, when [strcoll] finds them
    equal, by their bytes (its last-resort comparison).  [strcoll a b] is
    the byte comparison of [xfrm a] and [xfrm b], where [xfrm] is the
    locale's [strxfrm]; in the C locale [xfrm] is the identity and the
    order is the byte order. *)
Definition sort_le (xfrm : string -> string) (a b : string) : bool :=
  match String.compare (xfrm a) (xfrm b) with
  | Lt => true
  | Gt => false
  | Eq => String.leb a b
  end.

(** [sort]: insertion by [sort_le]. *)
Fixpoint insert_sorted (xfrm : string -> string) (x : string) (l : list string) : list string :=
  match l with
  | [] => [x]
  | y :: l' => if sort_le xfrm x y then x :: y :: l' else y :: insert_sorted xfrm x l'
  end.

Fixpoint isort (xfrm : string -> string) (l : list string) : list string :=
  match l with [] => [] | x :: l' => insert_sorted xfrm x (isort xfrm l') end.

Definition sort_lines (xfrm : string -> string) (s : string) : string :=
  unlines (isort xfrm (lines s)).

(** Shell patterns of [find -path]: [*] matches any sequence of
    characters, [/] and leading dots included; other characters match
    themselves. *)
Fixpoint gmatch (p : string) : string -> bool :=
  match p with
  | EmptyString => fun s => match s with EmptyString => true | _ => false end
  | String c p' =>
      if Ascii.eqb c "*"%char then
        fix star (s : string) : bool :=
          gmatch p' s || match s with EmptyString => false | String _ s' => star s' end
      else fun s => match s with
                    | EmptyString => false
                    | String c' s' => Ascii.eqb c c' && gmatch p' s'
                    end
  end.

(** ** The tree listing of [snapshot_files] *)

(** How [find .] prints a path. *)
Definition render (k : path) : string := "./" +:+ String.concat "/" k.

(** The [-not -path] filters of the listing. *)
Definition excluded_patterns : list string :=
  ["./node_modules/*"; "./.git/*"; "./.claude/*"; "./.tutorial-snapshots/*";
   "./scripts/outputs/*"; "./vhs/output/*"].

(** The directories these patterns exclude: each pattern is one of them
    followed by [*]. *)
Definition excluded_dirs : list string :=
  ["./node_modules/"; "./.git/"; "./.claude/"; "./.tutorial-snapshots/";
   "./scripts/outputs/"; "./vhs/output/"].

Definition listed (p : string) : bool :=
  forallb (fun pat => negb (gmatch pat p)) excluded_patterns.

Definition entry_is_file (e : entry) : bool :=
  match e with File _ => true | Dir => false end.

(** [find . -type f -not -path ... ]: the printed paths, in the order the
    directory walk meets them. *)
Definition find_list (f : gmap path entry) : list string :=
  filter (fun p => listed p = true)
    (map (fun kv : path * entry => render kv.1)
       (filter (fun kv : path * entry => entry_is_file kv.2 = true) (map_to_list f))).

Definition find_output (f : gmap path entry) : string := unlines (find_list f).

(** [find ... | sort > "$dir/tree.txt"], in the collation [xfrm] of the
    caller's locale. *)
Definition tree_listing (xfrm : string -> string) (f : gmap path entry) : string :=
  sort_lines xfrm (find_output f).

(** The paths [find] lists, as a set: the listed regular files. *)
Definition listed_files (f : gmap path entry) : gmap path unit :=
  (λ _, ()) <$> filter (λ kv : path * entry, listed (render kv.1) = true ∧ entry_is_file kv.2 = true) f.

(** ** The statements of the script *)

Section Script.

(** [runme run cell --filename TUTORIAL-RUNME.md]: the merged stdout and
    stderr of the cell, its exit status and the project after it ran. *)
Variable runme : string -> gmap path entry -> string * Z * gmap path entry.

(** What [require(...)] makes of the dependency manifest: [None] when it is
    not valid JSON (require throws), [Some None] when it has no [version]
    field ([console.log] prints [undefined]), [Some (Some v)] otherwise. *)
Variable json_version : string -> option (option string).

Definition lift (c : gmap path entry -> Z * gmap path entry) (w : world) : Z * world :=
  let '(st, f') := c (w_fs w) in (st, set_fs w f').

(** [run_and_capture cell]:
    [runme run "$cell" --filename "$NOTEBOOK" > "$OUT/$cell.txt" 2>&1 || true].
    The redirection creates or truncates the file before the cell runs,
    and the cell's merged output streams into that open file.  When the
    cell leaves the file where it is, the file ends up holding that output.
    When the cell removes it (or [scripts/outputs/]) or puts another file in
    its place, the stream goes to the unlinked file and the cell's own
    version of the path stays.  (A cell writing into its own output file in
    place interleaves with the stream in a way that depends on timing; the
    model keeps the cell's version then.)  [|| true] makes the status 0
    whatever happened, also when the redirection could not be opened (then
    the cell does not run). *)
Definition run_and_capture (cell : string) : step :=
  Step (fun w =>
          let f := w_fs w in
          if can_write f OUT (cell +:+ ".txt") then
            let '(out, _, f2) := runme cell (<[cell_file cell := File ""]> f) in
            match f2 !! cell_file cell with
            | Some (File EmptyString) => (0, set_fs w (<[cell_file cell := File out]> f2))
            | _ => (0, set_fs w f2)
            end
          else (0, w))
       [ECell cell].

(** [node --version], [npm --version]: stdout and status. *)
Definition tool_version (v : option string) : string * Z :=
  match v with Some s => (s +:+ NL, 0) | None => ("", 127) end.

(** [node -e "console.log(require('./node_modules/@libar-dev/delivery-process/package.json').version)" 2>/dev/null] *)
Definition node_dep_version (w : world) : string * Z :=
  match w_node w with
  | None => ("", 127)
  | Some _ =>
      match w_fs w !! DEP_MANIFEST with
      | Some (File c) =>
          match json_version c with
          | Some (Some v) => (v +:+ NL, 0)
          | Some None => ("undefined" +:+ NL, 0)
          | None => ("", 1)
          end
      | _ => ("", 1)
      end
  end.

(** [cmd || echo 'unknown'] *)
Definition or_unknown (r : string * Z) : string :=
  if Z.eqb r.2 0 then r.1 else r.1 +:+ "unknown" +:+ NL.

(** The text of the [{ echo ...; } > "$OUT/environment.txt"] group. *)
Definition env_contents (w : world) : string :=
  "date: " +:+ strip_nl (w_date w) +:+ NL +:+
  "node: " +:+ strip_nl (tool_version (w_node w)).1 +:+ NL +:+
  "npm: " +:+ strip_nl (tool_version (w_npm w)).1 +:+ NL +:+
  "os: " +:+ strip_nl (w_uname_s w) +:+ " " +:+ strip_nl (w_uname_r w) +:+ NL +:+
  "package: " +:+ strip_nl (or_unknown (node_dep_version w)) +:+ NL.

(** [capture_environment]: the status of each [echo] is 0 whatever the
    substitutions did; only the redirection can fail. *)
Definition capture_environment : step :=
  Step (fun w =>
          let f := w_fs w in
          if can_write f OUT "environment.txt"
          then (0, set_fs w (<[ENVF := File (env_contents w)]> f))
          else (1, w))
       [EEnv].

(** [snapshot_files label], statement by statement. *)
Definition snapshot_files (label : string) : list step :=
  let dir := snap_dir label in
  [ (* mkdir -p "$dir" *)
    Step (lift (mkdir_p dir)) [];
    (* if [ -d src ]; then cp -r src/ "$dir/src/"; fi *)
    Step (fun w => if is_dir (w_fs w) ["src"]
                   then lift (cp_r "src" (dir ++ ["src"])) w else (0, w)) [];
    (* [ -f delivery-process.config.ts ] && cp delivery-process.config.ts "$dir/"
       (a failed test in an && list does not trigger errexit) *)
    Step (fun w => if is_file (w_fs w) ["delivery-process.config.ts"]
                   then lift (cp_file "delivery-process.config.ts" dir) w else (0, w)) [];
    (* [ -f tsconfig.json ] && cp tsconfig.json "$dir/" *)
    Step (fun w => if is_file (w_fs w) ["tsconfig.json"]
                   then lift (cp_file "tsconfig.json" dir) w else (0, w)) [];
    (* cp package.json "$dir/" *)
    Step (lift (cp_file "package.json" dir)) [];
    (* if [ -d docs-generated ]; then cp -r docs-generated/ "$dir/docs-generated/"; fi *)
    Step (fun w => if is_dir (w_fs w) ["docs-generated"]
                   then lift (cp_r "docs-generated" (dir ++ ["docs-generated"])) w else (0, w)) [];
    (* find . -type f -not -path ... | sort > "$dir/tree.txt" *)
    Step (fun w => let f := w_fs w in
                   if can_write f dir "tree.txt"
                   then (0, set_fs w (<[dir ++ ["tree.txt"] := File (tree_listing (w_xfrm w) f)]> f))
                   else (1, w)) [ESnap label] ].

End Script.

(** ** Prelude and summary *)

Fixpoint strip_prefix (p k : path) : option path :=
  match p, k with
  | [], _ => Some k
  | x :: p', y :: k' => if String.eqb x y then strip_prefix p' k' else None
  | _ :: _, [] => None
  end.

(** Does the directory [dir] have a child [n] with entry [e] such that
    [pred n e]? *)
Definition has_child (f : gmap path entry) (dir : path) (pred : string -> entry -> bool) : bool :=
  existsb (fun kv : path * entry =>
             match strip_prefix dir kv.1 with Some [n] => pred n kv.2 | _ => false end)
          (map_to_list f).

(** A glob [*] does not match names that start with a dot. *)
Definition not_hidden (n : string) : bool :=
  match n with String c _ => negb (Ascii.eqb c "."%char) | EmptyString => false end.

(** [cd "$PROJECT_DIR"; rm -rf "$OUT"; mkdir -p "$OUT/snapshots"] *)
Definition prelude : list step :=
  [ Step (fun w => (0, set_fs w (rm_rf OUT (w_fs w)))) [];
    Step (lift (mkdir_p SNAPS)) [] ].

(** [ls "$OUT"/*.txt | wc -l | xargs echo ...] and
    [ls -d "$OUT"/snapshots/*/ | wc -l | xargs echo ...]: under
    [pipefail] the pipeline fails with the status 2 of [ls] when the glob
    matches nothing and stays literal. *)
Definition summary : list step :=
  [ Step (fun w => (if has_child (w_fs w) OUT (fun n _ => not_hidden n && gmatch "*.txt" n)
                    then 0 else 2, w)) [];
    Step (fun w => (if has_child (w_fs w) SNAPS
                         (fun n e => not_hidden n && bool_decide (e = Dir))
                    then 0 else 2, w)) [] ].

(** The whole of [generate-article-outputs.sh]. *)
Definition script (runme : string -> gmap path entry -> string * Z * gmap path entry)
    (json_version : string -> option (option string)) : list step :=
  let rc := run_and_capture runme in
  prelude ++
    (* Phase 0: Clean start *)
    [rc "reset-workspace"; rc "install-deps"; capture_environment json_version] ++
    snapshot_files "00-setup" ++
    (* Part 1: Project Setup *)
    [rc "verify-deps"; rc "create-tsconfig"; rc "create-folders"; rc
     "checkpoint-1"] ++
    snapshot_files "01-project-setup" ++
    (* Part 2: Configuration *)
    [rc "create-config"; rc "add-npm-scripts"; rc "first-overview"; rc
     "checkpoint-2"] ++
    snapshot_files "02-configuration" ++
    (* Part 3: First Annotation *)
    [rc "create-user-service-v1"; rc "overview-after-first"; rc
     "sources-after-first"] ++
    snapshot_files "03-first-annotation" ++
    (* Part 4: Adding Richness *)
    [rc "create-user-service-v2"; rc "tags-after-richness"; rc
     "overview-after-richness"] ++
    snapshot_files "04-richness" ++
    (* Part 5: Relationships *)
    [rc "create-user-service-final"; rc "create-auth-handler"; rc
     "create-event-store"; rc "overview-with-deps"; rc "dep-tree-auth"; rc
     "arch-contexts"; rc "list-roadmap"; rc "checkpoint-5"] ++
    snapshot_files "05-relationships" ++
    (* Part 6: Doc Generation *)
    [rc "gen-patterns"; rc "gen-roadmap"; rc "list-generated"; rc
     "checkpoint-6"] ++
    snapshot_files "06-doc-generation" ++
    (* Part 7: Gherkin Specs *)
    [rc "create-user-reg-feature"; rc "create-auth-feature"; rc
     "query-rules"; rc "gen-business-rules"; rc "overview-after-gherkin";
     rc "sources-after-gherkin"; rc "checkpoint-7"] ++
    snapshot_files "07-gherkin" ++
    (* Part 8: Design Stubs *)
    [rc "create-notification-stub"; rc "query-stubs"; rc "checkpoint-8"] ++
    snapshot_files "08-stubs" ++
    (* Part 9: Full Generation *)
    [rc "gen-all"; rc "list-all-generated"; rc "add-reference-config"; rc
     "gen-reference"; rc "list-generators"; rc "lint-patterns"; rc
     "checkpoint-9"] ++
    snapshot_files "09-full-generation" ++
    (* Part 10: Advanced Queries *)
    [rc "arch-neighborhood"; rc "arch-blocking"; rc "arch-dangling"; rc
     "pattern-detail"; rc "count-roadmap"; rc "final-overview"; rc
     "final-verification"] ++
    snapshot_files "10-advanced" ++
    summary.

(** Every cell the script captures, in order. *)
Definition script_cells : list string :=
  ["reset-workspace"; "install-deps"; "verify-deps"; "create-tsconfig";
   "create-folders"; "checkpoint-1"; "create-config"; "add-npm-scripts";
   "first-overview"; "checkpoint-2"; "create-user-service-v1";
   "overview-after-first"; "sources-after-first";
   "create-user-service-v2"; "tags-after-richness";
   "overview-after-richness"; "create-user-service-final";
   "create-auth-handler"; "create-event-store"; "overview-with-deps";
   "dep-tree-auth"; "arch-contexts"; "list-roadmap"; "checkpoint-5";
   "gen-patterns"; "gen-roadmap"; "list-generated"; "checkpoint-6";
   "create-user-reg-feature"; "create-auth-feature"; "query-rules";
   "gen-business-rules"; "overview-after-gherkin";
   "sources-after-gherkin"; "checkpoint-7"; "create-notification-stub";
   "query-stubs"; "checkpoint-8"; "gen-all"; "list-all-generated";
   "add-reference-config"; "gen-reference"; "list-generators";
   "lint-patterns"; "checkpoint-9"; "arch-neighborhood"; "arch-blocking";
   "arch-dangling"; "pattern-detail"; "count-roadmap"; "final-overview";
   "final-verification"].

(** The order in which the steps of a complete run are logged. *)
Definition schedule : list event :=
  [ECell "reset-workspace"; ECell "install-deps"; EEnv; ESnap "00-setup"] ++
  [ECell "verify-deps"; ECell "create-tsconfig"; ECell "create-folders";
    ECell "checkpoint-1"; ESnap "01-project-setup"] ++
  [ECell "create-config"; ECell "add-npm-scripts"; ECell
    "first-overview"; ECell "checkpoint-2"; ESnap "02-configuration"] ++
  [ECell "create-user-service-v1"; ECell "overview-after-first"; ECell
    "sources-after-first"; ESnap "03-first-annotation"] ++
  [ECell "create-user-service-v2"; ECell "tags-after-richness"; ECell
    "overview-after-richness"; ESnap "04-richness"] ++
  [ECell "create-user-service-final"; ECell "create-auth-handler"; ECell
    "create-event-store"; ECell "overview-with-deps"; ECell
    "dep-tree-auth"; ECell "arch-contexts"; ECell "list-roadmap"; ECell
    "checkpoint-5"; ESnap "05-relationships"] ++
  [ECell "gen-patterns"; ECell "gen-roadmap"; ECell "list-generated";
    ECell "checkpoint-6"; ESnap "06-doc-generation"] ++
  [ECell "create-user-reg-feature"; ECell "create-auth-feature"; ECell
    "query-rules"; ECell "gen-business-rules"; ECell
    "overview-after-gherkin"; ECell "sources-after-gherkin"; ECell
    "checkpoint-7"; ESnap "07-gherkin"] ++
  [ECell "create-notification-stub"; ECell "query-stubs"; ECell
    "checkpoint-8"; ESnap "08-stubs"] ++
  [ECell "gen-all"; ECell "list-all-generated"; ECell
    "add-reference-config"; ECell "gen-reference"; ECell
    "list-generators"; ECell "lint-patterns"; ECell "checkpoint-9"; ESnap
    "09-full-generation"] ++
  [ECell "arch-neighborhood"; ECell "arch-blocking"; ECell
    "arch-dangling"; ECell "pattern-detail"; ECell "count-roadmap"; ECell
    "final-overview"; ECell "final-verification"; ESnap "10-advanced"].

(** A statement that does not touch the log. *)
Definition keeps_log (s : step) : Prop := ∀ w, w_log (exec s w).2 = w_log w.

End Pipeline.

(* ------------------------------------------------------------------ *)
(** ** Concrete inputs used by witnesses and counterexamples *)
(* ------------------------------------------------------------------ *)

Module Samples.
Import Pipeline.

(** Every cell prints one line and succeeds without touching files. *)
Definition quiet_runme (c : string) (f : gmap path entry) : string * Z * gmap path entry :=
  ("ran " +:+ c +:+ NL, 0, f).

(** Every cell fails with status 1. *)
Definition failing_runme (c : string) (f : gmap path entry) : string * Z * gmap path entry :=
  ("error in " +:+ c +:+ NL, 1, f).

Definition plain_json (c : string) : option (option string) := Some (Some "1.0.0-pre.0").

(** A project with its script directory and a manifest. *)
Definition project_fs : gmap path entry :=
  <[["scripts"] := Dir]> (<[["package.json"] := File "{}"]> ∅).



(** A project with sources, an installed dependency and earlier outputs. *)
Definition tree_fs : gmap path entry :=
  <[["src"; "services"; "user-service.ts"] := File "export class UserService {}"]>
  (<[["node_modules"; "@libar-dev"; "delivery-process"; "package.json"] := File "{}"]>
  (<[["scripts"; "outputs"; "environment.txt"] := File "date: 2026-02-21"]>
  (<[["src"; "services"] := Dir]> (<[["src"] := Dir]> project_fs)))).

Definition world_of (f : gmap path entry) : world :=
  mkWorld f [] "2026-02-21" (Some "v22.17.1") (Some "11.6.1") "Darwin" "25.2.0" (λ s, s).

End Samples.

(* ------------------------------------------------------------------ *)
(** ** Invariants of a run *)
(* ------------------------------------------------------------------ *)

Module Invariants.
Import Pipeline.

(** The output directory as the script's own statements keep it: the
    manifest is a regular file, [scripts/], [scripts/outputs/] and
    [scripts/outputs/snapshots/] are directories, no other entry of
    [scripts/outputs/] is a directory, no snapshot directory is a regular
    file, and no [tree.txt] of a snapshot is a directory. *)
Definition sane (f : gmap path entry) : Prop :=
  is_file f ["package.json"] = true ∧
  f !! SCRIPT_DIR = Some Dir ∧ f !! OUT = Some Dir ∧ f !! SNAPS = Some Dir ∧
  (∀ x, x ≠ "snapshots" → is_dir f (OUT ++ [x]) = false) ∧
  (∀ l, is_file f (snap_dir l) = false) ∧
  (∀ l, is_dir f (snap_dir l ++ ["tree.txt"]) = false).

(** From [f] to [f'], the regular files and directories of [scripts/]
    up to depth four stay what they are. *)
Definition keeps4 (f f' : gmap path entry) : Prop :=
  ∀ k, SCRIPT_DIR `prefix_of` k → (length k ≤ 4)%nat →
    (is_file f k = true → is_file f' k = true) ∧ (is_dir f k = true → is_dir f' k = true).

(** The paths [sane] and [keeps4] look at: depth at most four, or the
    [tree.txt] of a snapshot. *)
Definition crit (k : path) : Prop :=
  (length k ≤ 4)%nat ∨ ∃ l, k = snap_dir l ++ ["tree.txt"].

(** What a logged step leaves behind: the cell's output file, the
    environment file, the snapshot directory. *)
Definition holds (f : gmap path entry) (e : event) : Prop :=
  match e with
  | ECell c => is_file f (cell_file c) = true
  | EEnv => is_file f ENVF = true
  | ESnap l => is_dir f (snap_dir l) = true
  end.

(** The invariant of a run that started with the log [l0], once the
    environment is recorded and the first snapshot taken. *)
Definition inv (l0 : list event) (w : world) : Prop :=
  sane (w_fs w) ∧ ∃ l, w_log w = l0 ++ l ∧ Forall (holds (w_fs w)) l ∧
    EEnv ∈ l ∧ ESnap "00-setup" ∈ l.

(** A list of statements that, from a world satisfying [P], completes and
    ends in a world satisfying [P]. *)
Definition block_ok (P : world -> Prop) (ss : list step) : Prop :=
  ∀ w, P w → ∃ w', run_steps ss w = Done w' ∧ P w'.

End Invariants.

(* ------------------------------------------------------------------ *)
(** ** The reset-workspace cell *)
(* ------------------------------------------------------------------ *)

(** The cell [reset-workspace] of the tutorial notebook, as captured in
    [.tutorial-snapshots/01-v1-manual/src/specs/user-registration.feature]:
<<
rm -rf src/ docs-generated/ tsconfig.json delivery-process.config.ts
cat > package.json << 'JSON'
...
JSON
echo "Workspace reset. Ready for tutorial."
>>
    The cell runs as a plain bash script: a failing command prints its
    error and the next one runs; the status is the one of the last
    command. *)
Module ResetWorkspace.
Import Pipeline.

(** The JSON values of a manifest. *)
#[warnings="-register-all"] Inductive json := JStr (s : string) | JBool (b : bool) | JObj (fields : list (string * json)).

Definition QUOTE : string := String "034"%char EmptyString.

Definition q (s : string) : string := QUOTE +:+ s +:+ QUOTE.

Fixpoint spaces (n : nat) : string :=
  match n with O => "" | S n' => String " " (spaces n') end.

(** Two-space indented JSON, one member per line. *)
Fixpoint render_json (n : nat) (j : json) : string :=
  match j with
  | JStr s => q s
  | JBool b => if b then "true" else "false"
  | JObj [] => "{}"
  | JObj fs =>
      "{" +:+ NL +:+
      String.concat ("," +:+ NL)
        (List.map (fun kv => spaces (n + 2) +:+ q kv.1 +:+ ": " +:+ render_json (n + 2) kv.2) fs) +:+
      NL +:+ spaces n +:+ "}"
  end.

(** The text of the here-document, line by line. *)
Definition manifest_text : string :=
  unlines
    [ "{";
      "  " +:+ q "name" +:+ ": " +:+ q "dp-mini-demo" +:+ ",";
      "  " +:+ q "version" +:+ ": " +:+ q "1.0.0" +:+ ",";
      "  " +:+ q "type" +:+ ": " +:+ q "module" +:+ ",";
      "  " +:+ q "private" +:+ ": true,";
      "  " +:+ q "dependencies" +:+ ": {";
      "    " +:+ q "@libar-dev/delivery-process" +:+ ": " +:+ q "1.0.0-pre.0";
      "  },";
      "  " +:+ q "devDependencies" +:+ ": {";
      "    " +:+ q "typescript" +:+ ": " +:+ q "^5.7.0" +:+ ",";
      "    " +:+ q "tsx" +:+ ": " +:+ q "^4.19.0";
      "  }";
      "}" ].

(** The manifest the here-document holds, as a JSON value. *)
Definition minimal_manifest : json :=
  JObj [ ("name", JStr "dp-mini-demo"); ("version", JStr "1.0.0");
         ("type", JStr "module"); ("private", JBool true);
         ("dependencies", JObj [("@libar-dev/delivery-process", JStr "1.0.0-pre.0")]);
         ("devDependencies", JObj [("typescript", JStr "^5.7.0"); ("tsx", JStr "^4.19.0")]) ].

Definition json_keys (j : json) : list string :=
  match j with JObj fs => List.map fst fs | _ => [] end.

(** One operand of [rm -rf].  An operand written with a trailing slash
    must be a directory: on a regular file [rm] reports an error and
    leaves it. *)
Definition rm_operand (name : string) (slash : bool) (f : gmap path entry) : string * gmap path entry :=
  match f !! [name] with
  | Some (File _) =>
      if slash then ("rm: cannot remove '" +:+ name +:+ "/': Not a directory" +:+ NL, f)
      else ("", rm_rf [name] f)
  | _ => ("", rm_rf [name] f)
  end.

(** The cell, with the signature of a [runme] cell: merged output,
    status and the new project. *)
Definition reset_workspace (f : gmap path entry) : string * Z * gmap path entry :=
  let '(e1, f1) := rm_operand "src" true f in
  let '(e2, f2) := rm_operand "docs-generated" true f1 in
  let '(e3, f3) := rm_operand "tsconfig.json" false f2 in
  let '(e4, f4) := rm_operand "delivery-process.config.ts" false f3 in
  let '(e5, f5) :=
    if is_dir f4 ["package.json"]
    then ("bash: package.json: Is a directory" +:+ NL, f4)
    else ("", <[["package.json"] := File manifest_text]> f4) in
  (e1 +:+ e2 +:+ e3 +:+ e4 +:+ e5 +:+ "Workspace reset. Ready for tutorial." +:+ NL, 0, f5).

(** The paths the first command removes. *)
Definition reset_paths : list string :=
  ["src"; "docs-generated"; "tsconfig.json"; "delivery-process.config.ts"].

(** Nothing lies at or below [p]. *)
Definition vacant (p : path) (g : gmap path entry) : Prop := ∀ k, p `prefix_of` k → g !! k = None.

(** [h] agrees with [g] on the top-level path [n]: the same entry there,
    and nothing below it when [g] has nothing below it. *)
Definition agree (n : string) (g h : gmap path entry) : Prop :=
  h !! [n] = g !! [n] ∧ (vacant [n] g → vacant [n] h).

End ResetWorkspace.

(* ------------------------------------------------------------------ *)
(** ** [src/sample-sources/event-store.ts] *)
(* ------------------------------------------------------------------ *)

(** The JavaScript heap the class works on: arrays of references and
    [DomainEvent] objects, at addresses below [next]. *)
Module EventStoreModel.

(** A payload is [unknown]: any JavaScript value. *)
Inductive value := VUndef | VNull | VBool (b : bool) | VNum (z : Z) | VStr (s : string) | VRef (a : N).

Record DomainEvent := MkDomainEvent {
  type : string;
  payload : value;
  timestamp : Z
}.

Record heap := Heap {
  arrs : gmap N (list N);
  objs : gmap N DomainEvent;
  next : N
}.

(** Every address in use is below [next], and arrays refer to allocated
    objects. *)
Definition wf (h : heap) : Prop :=
  (∀ a l, arrs h !! a = Some l → (a < next h)%N ∧ Forall (λ o, is_Some (objs h !! o)) l) ∧
  (∀ o e, objs h !! o = Some e → (o < next h)%N).

Definition wfb (h : heap) : bool :=
  forallb (λ kv : N * list N,
             bool_decide (kv.1 < next h)%N && forallb (λ o, bool_decide (is_Some (objs h !! o))) kv.2)
          (map_to_list (arrs h)) &&
  forallb (λ kv : N * DomainEvent, bool_decide (kv.1 < next h)%N) (map_to_list (objs h)).

Definition alloc_arr (l : list N) (h : heap) : N * heap :=
  (next h, Heap (<[next h := l]> (arrs h)) (objs h) (next h + 1)%N).

Definition alloc_obj (e : DomainEvent) (h : heap) : N * heap :=
  (next h, Heap (arrs h) (<[next h := e]> (objs h)) (next h + 1)%N).

(** Any change a caller makes to the array at [a]: [push], [pop],
    [splice], [a[i] = ...], [sort], ... *)
Definition set_arr (a : N) (l : list N) (h : heap) : heap :=
  Heap (<[a := l]> (arrs h)) (objs h) (next h).

(** An instance: its private field [events]. *)
Record EventStore := MkEventStore { events : N }.

(** [new EventStore()]: [private events: DomainEvent[] = []]. *)
Definition new_EventStore (h : heap) : EventStore * heap :=
  let '(a, h') := alloc_arr [] h in (MkEventStore a, h').

(** [append(type, payload)]:
    [this.events.push({ type, payload, timestamp: Date.now() })], with
    [now] the value of [Date.now()]; [None] when [this.events] is not an
    array ([push] throws). *)
Definition append (s : EventStore) (type : string) (payload : value) (now : Z) (h : heap) : option heap :=
  let '(o, h1) := alloc_obj (MkDomainEvent type payload now) h in
  l ← arrs h1 !! events s;
  Some (set_arr (events s) (l ++ [o]) h1).

(** [getAll()]: [return [...this.events]], a new array holding the same
    references. *)
Definition getAll (s : EventStore) (h : heap) : option (N * heap) :=
  l ← arrs h !! events s;
  Some (alloc_arr l h).

(** [(e) => e.type === type] *)
Definition type_is (h : heap) (ty : string) (o : N) : bool :=
  match objs h !! o with Some e => String.eqb (type e) ty | None => false end.

(** [getByType(type)]: [return this.events.filter((e) => e.type === type)]. *)
Definition getByType (s : EventStore) (ty : string) (h : heap) : option (N * heap) :=
  l ← arrs h !! events s;
  Some (alloc_arr (List.filter (type_is h ty) l) h).

(** The events a list of references designates, in order. *)
Fixpoint deref (h : heap) (l : list N) : option (list DomainEvent) :=
  match l with
  | [] => Some []
  | o :: l' => e ← objs h !! o; es ← deref h l'; Some (e :: es)
  end.

Definition contents (h : heap) (a : N) : option (list DomainEvent) :=
  arrs h !! a ≫= deref h.

(** What a caller reads from the array a query returns. *)
Definition all_events (s : EventStore) (h : heap) : option (list DomainEvent) :=
  '(a, h') ← getAll s h; contents h' a.

Definition events_of_type (s : EventStore) (ty : string) (h : heap) : option (list DomainEvent) :=
  '(a, h') ← getByType s ty h; contents h' a.

(** [append] called with each (type, payload, time) in turn. *)
Fixpoint append_all (s : EventStore) (evs : list (string * value * Z)) (h : heap) : option heap :=
  match evs with
  | [] => Some h
  | (ty, p, now) :: evs' => h' ← append s ty p now h; append_all s evs' h'
  end.

Definition empty_heap : heap := Heap ∅ ∅ 0%N.

(** A store at array [0] holding one event, and an unrelated empty array. *)
Definition one_event_heap : heap :=
  Heap {[0%N := [1%N]; 2%N := []]} {[1%N := MkDomainEvent "UserRegistered" (VStr "u-1") 100]} 3.

End EventStoreModel.

(* ------------------------------------------------------------------ *)
(** ** [src/sample-sources/user-service.ts] *)
(* ------------------------------------------------------------------ *)

Module UserServiceModel.

Record UserRecord := MkUserRecord {
  id : string;
  email : string;
  active : bool
}.

(** The records, shared by reference between the map and the callers. *)
Record heap := Heap {
  objs : gmap N UserRecord;
  next : N
}.

(** An instance: its private field [users = new Map<string, UserRecord>()],
    from keys to references. *)
Record UserService := MkUserService { users : gmap string N }.

Definition new_UserService : UserService := MkUserService ∅.

(** [register(email)], with [uuid] the value of [crypto.randomUUID()]:
    [this.users.set(id, { id, email, active: true }); return id]. *)
Definition register (mail uuid : string) (s : UserService) (h : heap) : string * UserService * heap :=
  let o := next h in
  (uuid, MkUserService (<[uuid := o]> (users s)),
   Heap (<[o := MkUserRecord uuid mail true]> (objs h)) (next h + 1)%N).

(** [findById(id)]: [this.users.get(id) ?? null], a reference. *)
Definition findById (key : string) (s : UserService) : option N := users s !! key.

(** The record a caller sees through [findById]. *)
Definition view (s : UserService) (h : heap) (key : string) : option UserRecord :=
  o ← users s !! key; objs h !! o.

(** [deactivate(id)]:
    [const user = this.users.get(id); if (!user) return false;
     user.active = false; return true].  The write goes through the
    reference the map holds.  [None]: the map holds a reference to no
    object, which a JavaScript heap never has. *)
Definition deactivate (key : string) (s : UserService) (h : heap) : option (bool * heap) :=
  match users s !! key with
  | None => Some (false, h)
  | Some o =>
      match objs h !! o with
      | Some r => Some (true, Heap (<[o := MkUserRecord (id r) (email r) false]> (objs h)) (next h))
      | None => None
      end
  end.

(** The map refers to allocated records, and no two keys share one. *)
Definition wfb (s : UserService) (h : heap) : bool :=
  forallb (λ kv : string * N,
             bool_decide (is_Some (objs h !! kv.2)) &&
             forallb (λ kv' : string * N, bool_decide (kv'.2 = kv.2 → kv'.1 = kv.1))
                     (map_to_list (users s)))
          (map_to_list (users s)).

(** Every record lies below [next]: an allocation never reuses an
    address in use. *)
Definition heap_ok (h : heap) : bool :=
  forallb (λ kv : N * UserRecord, bool_decide (kv.1 < next h)%N) (map_to_list (objs h)).

(** Two users registered on a new service. *)
Definition two_users : UserService * heap :=
  let '(_, s1, h1) := register "a@example.com" "id-1" new_UserService (Heap ∅ 0%N) in
  let '(_, s2, h2) := register "b@example.com" "id-2" s1 h1 in
  (s2, h2).

End UserServiceModel.

(* ------------------------------------------------------------------ *)
(** ** Facts about the pipeline *)
(* ------------------------------------------------------------------ *)

Module PipelineFacts.
Import Pipeline Samples Invariants.

(** *** Running statement lists *)

Lemma run_steps_app (ss1 ss2 : list step) (w : world) :
  run_steps (ss1 ++ ss2) w =
  match run_steps ss1 w with
  | Done w' => run_steps ss2 w'
  | Aborted c w' => Aborted c w'
  end.
Proof.
  induction ss1 as [|s ss1 IH] in w |- *; simpl; [done|].
  destruct (exec s w) as [st w']. by destruct (Z.eqb st 0).
Qed.

Lemma run_steps_log (ss : list step) (w : world) :
  Forall keeps_log ss →
  match run_steps ss w with
  | Done w' => w_log w' = w_log w ++ concat (map marks ss)
  | Aborted _ w' => ∃ l, w_log w' = w_log w ++ l ∧ l `prefix_of` concat (map marks ss)
  end.
Proof.
  induction ss as [|s ss IH] in w |- *; intros Hk; simpl.
  - by rewrite app_nil_r.
  - inversion Hk as [|? ? Hs Hss]; subst.
    specialize (Hs w). destruct (exec s w) as [st w'] eqn:E; simpl in Hs.
    destruct (Z.eqb st 0).
    + specialize (IH (add_log w' (marks s)) Hss).
      destruct (run_steps ss (add_log w' (marks s))) as [w''|c w''].
      * rewrite IH. simpl. rewrite Hs. by rewrite app_assoc.
      * destruct IH as [l [Hl Hp]]. simpl in Hl. rewrite Hs in Hl.
        exists (marks s ++ l). split; [by rewrite Hl, app_assoc|].
        by apply prefix_app.
    + exists []. rewrite Hs, app_nil_r. split; [done|]. apply prefix_nil.
Qed.

Lemma lift_log c (w : world) : w_log (lift c w).2 = w_log w.
Proof. unfold lift. by destruct (c (w_fs w)). Qed.

Ltac keeps_log_step :=
  let w := fresh "w" in
  intros w; simpl; repeat (case_match; simpl); rewrite ?lift_log; reflexivity.

Lemma snapshot_files_keeps_log (label : string) : Forall keeps_log (snapshot_files label).
Proof. unfold snapshot_files. repeat constructor; keeps_log_step. Qed.

(** A property of every statement of the script follows from the property
    of its kinds of statements. *)
Lemma script_forall (P : step -> Prop) runme json_version :
  (∀ c, P (run_and_capture runme c)) → P (capture_environment json_version) →
  (∀ l, Forall P (snapshot_files l)) → Forall P prelude → Forall P summary →
  Forall P (script runme json_version).
Proof.
  intros Hrc Henv Hsnap Hpre Hsum. unfold script.
  repeat (apply Forall_app_2; [first [apply Hpre | apply Hsnap | repeat constructor; auto] |]).
  exact Hsum.
Qed.

Lemma run_and_capture_keeps_log runme c : keeps_log (run_and_capture runme c).
Proof.
  intros w. cbn [exec run_and_capture].
  destruct (can_write _ _ _); [|done]. destruct (runme _ _) as [[? ?] f2].
  by destruct (f2 !! _) as [[[|? ?]|]|].
Qed.

Lemma capture_environment_keeps_log json_version : keeps_log (capture_environment json_version).
Proof. intros w. cbn [exec capture_environment]. by destruct (can_write _ _ _). Qed.

Lemma script_keeps_log runme json_version : Forall keeps_log (script runme json_version).
Proof.
  apply script_forall.
  - apply run_and_capture_keeps_log.
  - apply capture_environment_keeps_log.
  - apply snapshot_files_keeps_log.
  - repeat constructor; keeps_log_step.
  - repeat constructor; keeps_log_step.
Qed.

Lemma script_marks runme json_version :
  concat (map marks (script runme json_version)) = schedule.
Proof. vm_compute. reflexivity. Qed.

(** What a run logs: the whole schedule when it completes, a prefix of
    it when it is aborted. *)
Lemma script_run_log runme json_version (w : world) :
  match run_steps (script runme json_version) w with
  | Done w' => w_log w' = w_log w ++ schedule
  | Aborted _ w' => ∃ l, w_log w' = w_log w ++ l ∧ l `prefix_of` schedule
  end.
Proof.
  pose proof (run_steps_log _ w (script_keeps_log runme json_version)) as H.
  rewrite script_marks in H. exact H.
Qed.

(** *** C4: the order of the steps *)

(** C4 (corrected).  Every run logs its steps in the order of [schedule]:
    reset-workspace, install-deps, the Environment Recorder, the 00-setup
    snapshot, then for Parts 1 to 10 in order their cells one after the
    other followed by the snapshot of the Part.  A run that completes logs
    the whole schedule; a run that is aborted logs a prefix of it. *)
Theorem script_step_order runme json_version (w : world) :
  match run_steps (script runme json_version) w with
  | Done w' => w_log w' = w_log w ++ schedule
  | Aborted _ w' => ∃ l, w_log w' = w_log w ++ l ∧ l `prefix_of` schedule
  end.
Proof.
  pose proof (run_steps_log _ w (script_keeps_log runme json_version)) as H.
  rewrite script_marks in H. exact H.
Qed.

(** C4, counterexample: in a complete run the Environment Recorder does not
    come right after the Workspace Reset: the install-deps cell runs in
    between. *)
Lemma step_order_cex :
  match run_steps (script quiet_runme plain_json) (world_of project_fs) with
  | Done w' => ¬ (∃ rest, w_log w' = ECell "reset-workspace" :: EEnv :: rest)
  | Aborted _ _ => False
  end.
Proof. vm_compute. intros [rest H]. discriminate H. Qed.

(** *** C2: the Step Runner *)

(** C2.  [run_and_capture] always ends with status 0, whatever the status
    of the cell.  When the output file cannot be opened nothing happens.
    When it can, and the cell leaves [scripts/outputs/] alone, the run
    leaves exactly one new or changed path under [scripts/outputs/]:
    [OUT/<cell>.txt], which holds the merged output of the cell verbatim
    (the file is truncated before the cell runs); outside
    [scripts/outputs/] the project is as the cell left it. *)
Theorem run_and_capture_captures runme (cell : string) (w : world) :
  (exec (run_and_capture runme cell) w).1 = 0 ∧
  (can_write (w_fs w) OUT (cell +:+ ".txt") = false → (exec (run_and_capture runme cell) w).2 = w) ∧
  (can_write (w_fs w) OUT (cell +:+ ".txt") = true →
   (∀ f out st f2, runme cell f = (out, st, f2) → ∀ k, OUT `prefix_of` k → f2 !! k = f !! k) →
   ∃ out st f2 f', runme cell (<[cell_file cell := File ""]> (w_fs w)) = (out, st, f2) ∧
     (exec (run_and_capture runme cell) w).2 = set_fs w f' ∧
     f' !! cell_file cell = Some (File out) ∧
     (∀ k, OUT `prefix_of` k → k ≠ cell_file cell → f' !! k = w_fs w !! k) ∧
     (∀ k, ¬ OUT `prefix_of` k → f' !! k = f2 !! k)).
Proof.
  cbn [exec run_and_capture]. split; [|split].
  - destruct (can_write _ _ _); [|done]. destruct (runme _ _) as [[? ?] f2].
    by destruct (f2 !! _) as [[[|? ?]|]|].
  - intros Hc. by rewrite Hc.
  - intros Hc Hr. rewrite Hc.
    destruct (runme cell (<[cell_file cell := File ""]> (w_fs w))) as [[out st] f2] eqn:E.
    assert (Hout : OUT `prefix_of` cell_file cell) by (unfold cell_file; by apply prefix_app_r).
    assert (Hk : f2 !! cell_file cell = Some (File "")).
    { rewrite (Hr _ _ _ _ E _ Hout). apply lookup_insert_eq. }
    rewrite Hk. exists out, st, f2, (<[cell_file cell := File out]> f2).
    split; [done|]. split; [done|]. split; [apply lookup_insert_eq|]. split.
    + intros k Hk1 Hk2. rewrite lookup_insert_ne by congruence.
      rewrite (Hr _ _ _ _ E _ Hk1). by rewrite lookup_insert_ne by congruence.
    + intros k Hk1. rewrite lookup_insert_ne; [done|]. intros <-. by apply Hk1.
Qed.

(** *** C7: the Environment Recorder *)

Lemma string_app_cons (x : ascii) (a b : string) : String x a +:+ b = String x (a +:+ b).
Proof. reflexivity. Qed.

Lemma string_app_assoc (a b c : string) : (a +:+ b) +:+ c = a +:+ (b +:+ c).
Proof.
  induction a as [|x a IH]; [reflexivity|]. by rewrite !string_app_cons, IH.
Qed.

Lemma string_app_nil_r (a : string) : a +:+ "" = a.
Proof. induction a as [|x a IH]; [reflexivity|]. by rewrite string_app_cons, IH. Qed.

(** C7.  When the environment file can be opened, [capture_environment]
    succeeds and writes five newline-terminated [key: value] lines, date,
    node, npm, os and package, so the file is never empty; when the
    dependency manifest is not installed the package value is the sentinel
    [unknown]. *)
Theorem capture_environment_records json_version (w : world) :
  can_write (w_fs w) OUT "environment.txt" = true →
  ∃ d n m o p,
    exec (capture_environment json_version) w =
      (0, set_fs w (<[ENVF := File (unlines ["date: " +:+ d; "node: " +:+ n; "npm: " +:+ m;
                                              "os: " +:+ o; "package: " +:+ p])]> (w_fs w))) ∧
    unlines ["date: " +:+ d; "node: " +:+ n; "npm: " +:+ m; "os: " +:+ o; "package: " +:+ p] ≠ "" ∧
    (w_fs w !! DEP_MANIFEST = None → p = "unknown").
Proof.
  intros Hc. cbn [exec capture_environment]. rewrite Hc.
  exists (strip_nl (w_date w)), (strip_nl (tool_version (w_node w)).1),
    (strip_nl (tool_version (w_npm w)).1),
    (strip_nl (w_uname_s w) +:+ " " +:+ strip_nl (w_uname_r w)),
    (strip_nl (or_unknown (node_dep_version json_version w))).
  split; [|split].
  - do 3 f_equal. unfold env_contents, unlines.
    rewrite !string_app_assoc, string_app_nil_r. reflexivity.
  - discriminate.
  - intros Hn. unfold node_dep_version. rewrite Hn. by destruct (w_node w).
Qed.

(** *** C3: the Snapshot Capturer *)

Lemma run_steps_cons_ok (s : step) (ss : list step) (w w' : world) :
  exec s w = (0, w') → run_steps (s :: ss) w = run_steps ss (add_log w' (marks s)).
Proof. intros H. simpl. by rewrite H. Qed.

Lemma run_steps_cons_fail (s : step) (ss : list step) (w w' : world) (c : Z) :
  exec s w = (c, w') → c ≠ 0 → run_steps (s :: ss) w = Aborted c w'.
Proof. intros H Hc. simpl. rewrite H. by destruct (Z.eqb_spec c 0). Qed.

Lemma copy_tree_frame (src dst k : path) (f : gmap path entry) :
  ¬ dst `prefix_of` k → copy_tree src dst f !! k = f !! k.
Proof.
  intros Hk. unfold copy_tree.
  induction (map_to_list f) as [|[k' e] l IH]; simpl; [done|].
  case_decide; [|done]. rewrite lookup_insert_ne; [done|].
  intros <-. apply Hk. by eexists.
Qed.

Ltac path_neq := let H := fresh in intros H; simplify_eq.

(** [mkdir -p "$dir"] for a snapshot directory whose ancestors are not
    regular files. *)
Lemma mkdir_snap_dir (f : gmap path entry) (label : string) :
  is_file f SCRIPT_DIR = false → is_file f OUT = false → is_file f SNAPS = false →
  is_file f (snap_dir label) = false →
  mkdir_p (snap_dir label) f =
    (0, <[snap_dir label := Dir]> (<[SNAPS := Dir]> (<[OUT := Dir]> (<[SCRIPT_DIR := Dir]> f)))).
Proof.
  unfold mkdir_p, is_file, snap_dir, SNAPS, OUT, SCRIPT_DIR. cbn [mkdir_p_go app].
  intros H1 H2 H3 H4.
  rewrite ?lookup_insert_ne by path_neq.
  destruct (f !! ["scripts"]) as [[]|]; try discriminate;
  destruct (f !! ["scripts"; "outputs"]) as [[]|]; try discriminate;
  destruct (f !! ["scripts"; "outputs"; "snapshots"]) as [[]|]; try discriminate;
  destruct (f !! ["scripts"; "outputs"; "snapshots"; label]) as [[]|]; done.
Qed.

Lemma sub_neq (d : path) (a b : string) (r1 r2 : path) :
  a ≠ b → d ++ a :: r1 ≠ d ++ b :: r2.
Proof. intros Hab H. apply app_inv_head in H. congruence. Qed.

Lemma sub_not_prefix (d : path) (a b : string) (r : path) :
  a ≠ b → ¬ (d ++ [a]) `prefix_of` (d ++ b :: r).
Proof.
  intros Hab H. apply prefix_app_inv in H. apply prefix_cons_inv_1 in H. congruence.
Qed.

Lemma sub_not_prefix_short (d k : path) (a : string) :
  (length k ≤ length d)%nat → ¬ (d ++ [a]) `prefix_of` k.
Proof. intros Hl H. apply prefix_length in H. rewrite length_app in H. simpl in H. lia. Qed.

(** The statement [if [ -d name ]; then cp -r name/ "$dir/name/"; fi]. *)
Lemma guarded_cp_r_ok (name : string) (dir : path) (w : world) :
  ∃ f', exec (Step (fun w => if is_dir (w_fs w) [name]
                             then lift (cp_r name (dir ++ [name])) w else (0, w)) []) w
        = (0, set_fs w f') ∧
    (∀ k, ¬ (dir ++ [name]) `prefix_of` k → f' !! k = w_fs w !! k) ∧
    (is_dir (w_fs w) [name] = false → f' = w_fs w).
Proof.
  cbn [exec]. destruct (is_dir (w_fs w) [name]) eqn:Hn.
  - set (d := if is_dir (w_fs w) (dir ++ [name]) then dir ++ [name] ++ [name] else dir ++ [name]).
    exists (copy_tree [name] d (w_fs w)). split; [|split].
    + unfold lift, cp_r, d. unfold is_dir in Hn.
      destruct (w_fs w !! [name]) as [[]|]; try discriminate.
      by rewrite app_assoc.
    + intros k Hk. apply copy_tree_frame. intros Hp. apply Hk.
      transitivity d; [|done]. unfold d.
      destruct (is_dir (w_fs w) (dir ++ [name])); [|done]. exists [name]. by rewrite app_assoc.
    + done.
  - exists (w_fs w). split; [|split]; [|done|done]. by destruct w.
Qed.

(** The statement [[ -f name ] && cp name "$dir/"]. *)
Lemma guarded_cp_file_ok (name : string) (dir : path) (w : world) :
  is_dir (w_fs w) dir = true →
  ∃ f', exec (Step (fun w => if is_file (w_fs w) [name]
                             then lift (cp_file name dir) w else (0, w)) []) w
        = (0, set_fs w f') ∧
    (∀ k, k ≠ dir ++ [name] → f' !! k = w_fs w !! k) ∧
    (is_file (w_fs w) [name] = false → f' = w_fs w).
Proof.
  intros Hd. cbn [exec]. destruct (is_file (w_fs w) [name]) eqn:Hn.
  - unfold is_file in Hn. destruct (w_fs w !! [name]) as [[c|]|] eqn:Hc; try discriminate.
    exists (<[dir ++ [name] := File c]> (w_fs w)). split; [|split].
    + unfold lift, cp_file. rewrite Hc, Hd. reflexivity.
    + intros k Hk. by rewrite lookup_insert_ne.
    + done.
  - exists (w_fs w). split; [|split]; [|done|done]. by destruct w.
Qed.

(** The unguarded statement [cp package.json "$dir/"]. *)
Lemma cp_package_ok (dir : path) (w : world) :
  is_dir (w_fs w) dir = true →
  match exec (Step (lift (cp_file "package.json" dir)) []) w with
  | (0, w') => is_file (w_fs w) ["package.json"] = true ∧ w_log w' = w_log w ∧
               ∀ k, k ≠ dir ++ ["package.json"] → w_fs w' !! k = w_fs w !! k
  | (c, _) => is_file (w_fs w) ["package.json"] = false ∧ c = 1
  end.
Proof.
  intros Hd. cbn [exec]. unfold lift, cp_file, is_file.
  destruct (w_fs w !! ["package.json"]) as [[c|]|] eqn:Hc.
  - rewrite Hd. cbn. split; [done|split; [done|]]. intros k Hk. by rewrite lookup_insert_ne.
  - done.
  - done.
Qed.

(** The statement [find ... | sort > "$dir/tree.txt"]. *)
Lemma tree_step_ok (label : string) (w : world) :
  is_dir (w_fs w) (snap_dir label) = true →
  is_dir (w_fs w) (snap_dir label ++ ["tree.txt"]) = false →
  exec (Step (fun w => let f := w_fs w in
                 if can_write f (snap_dir label) "tree.txt"
                 then (0, set_fs w (<[snap_dir label ++ ["tree.txt"] := File (tree_listing (w_xfrm w) f)]> f))
                 else (1, w)) [ESnap label]) w
  = (0, set_fs w (<[snap_dir label ++ ["tree.txt"] := File (tree_listing (w_xfrm w) (w_fs w))]> (w_fs w))).
Proof. intros Hd Ht. cbn [exec]. unfold can_write. by rewrite Hd, Ht. Qed.

Lemma snap_top_neq (label a x : string) : snap_dir label ++ [a] ≠ [x].
Proof. intros H. apply (f_equal length) in H. rewrite length_app in H. simpl in H. lia. Qed.

Lemma snap_not_prefix_top (label a x : string) : ¬ (snap_dir label ++ [a]) `prefix_of` [x].
Proof. apply sub_not_prefix_short. simpl. lia. Qed.

Lemma snap_not_prefix_dir (label a : string) : ¬ (snap_dir label ++ [a]) `prefix_of` snap_dir label.
Proof. apply sub_not_prefix_short. lia. Qed.

Ltac snap_frame :=
  first [ apply sub_neq; discriminate | apply sub_not_prefix; discriminate
        | apply snap_top_neq | apply snap_not_prefix_top | apply snap_not_prefix_dir
        | intros ?; simplify_eq ].

(** C3 (corrected).  Take a snapshot into a fresh directory whose
    ancestors are not regular files.  The optional paths [src/],
    [delivery-process.config.ts], [tsconfig.json] and [docs-generated/] are
    skipped without error when they are absent, and the snapshot then lacks
    them.  The manifest [package.json] is copied without a guard: the
    snapshot completes exactly when it is present, and when it is absent
    the statement [cp package.json] fails and the script stops with
    status 1. *)
Theorem snapshot_skips_missing (label : string) (w : world) :
  is_file (w_fs w) SCRIPT_DIR = false → is_file (w_fs w) OUT = false →
  is_file (w_fs w) SNAPS = false →
  (∀ k, snap_dir label `prefix_of` k → w_fs w !! k = None) →
  match run_steps (snapshot_files label) w with
  | Done w' =>
      is_file (w_fs w) ["package.json"] = true ∧
      (is_dir (w_fs w) ["src"] = false →
         ∀ r, w_fs w' !! (snap_dir label ++ "src" :: r) = None) ∧
      (is_file (w_fs w) ["delivery-process.config.ts"] = false →
         w_fs w' !! (snap_dir label ++ ["delivery-process.config.ts"]) = None) ∧
      (is_file (w_fs w) ["tsconfig.json"] = false →
         w_fs w' !! (snap_dir label ++ ["tsconfig.json"]) = None) ∧
      (is_dir (w_fs w) ["docs-generated"] = false →
         ∀ r, w_fs w' !! (snap_dir label ++ "docs-generated" :: r) = None)
  | Aborted c _ => is_file (w_fs w) ["package.json"] = false ∧ c = 1
  end.
Proof.
  intros H1 H2 H3 Hfr.
  assert (H4 : is_file (w_fs w) (snap_dir label) = false).
  { unfold is_file. by rewrite Hfr. }
  set (F := w_fs w) in *.
  set (f1 := <[snap_dir label := Dir]> (<[SNAPS := Dir]> (<[OUT := Dir]> (<[SCRIPT_DIR := Dir]> F)))).
  assert (Hd1 : f1 !! snap_dir label = Some Dir) by (unfold f1; apply lookup_insert_eq).
  assert (Hs1 : ∀ x r, f1 !! (snap_dir label ++ x :: r) = None).
  { intros x r. unfold f1. rewrite !lookup_insert_ne.
    - apply Hfr. by apply prefix_app_r.
    - intros H. apply (f_equal length) in H. rewrite length_app in H. simpl in H. lia.
    - intros H. apply (f_equal length) in H. rewrite length_app in H. simpl in H. lia.
    - intros H. apply (f_equal length) in H. rewrite length_app in H. simpl in H. lia.
    - intros H. apply (f_equal length) in H. rewrite length_app in H. simpl in H. lia. }
  assert (Ht1 : ∀ x, x ≠ "scripts" → f1 !! [x] = F !! [x]).
  { intros x Hx. unfold f1. rewrite !lookup_insert_ne; try done;
    unfold snap_dir, SNAPS, OUT, SCRIPT_DIR; intros ?; simplify_eq; congruence. }
  unfold snapshot_files. cbv zeta.
  rewrite (run_steps_cons_ok _ _ _ (set_fs w f1)); cycle 1.
  { cbn [exec]. unfold lift. rewrite mkdir_snap_dir by done. reflexivity. }
  set (w1 := add_log (set_fs w f1) []).
  assert (Hw1 : w_fs w1 = f1) by reflexivity.
  (* cp -r src/ *)
  destruct (guarded_cp_r_ok "src" (snap_dir label) w1) as [f2 [E2 [Fr2 Sk2]]].
  rewrite Hw1 in Fr2, Sk2.
  rewrite (run_steps_cons_ok _ _ _ _ E2).
  set (w2 := add_log (set_fs w1 f2) []).
  assert (Hw2 : w_fs w2 = f2) by reflexivity.
  assert (Ht2 : ∀ x, x ≠ "scripts" → f2 !! [x] = F !! [x]).
  { intros x Hx. rewrite Fr2 by snap_frame. by apply Ht1. }
  assert (Hd2 : is_dir (w_fs w2) (snap_dir label) = true).
  { unfold is_dir. rewrite Hw2, Fr2 by snap_frame. by rewrite Hd1. }
  (* [ -f delivery-process.config.ts ] && cp *)
  destruct (guarded_cp_file_ok "delivery-process.config.ts" (snap_dir label) w2 Hd2)
    as [f3 [E3 [Fr3 Sk3]]].
  rewrite Hw2 in Fr3, Sk3, Hd2.
  rewrite (run_steps_cons_ok _ _ _ _ E3).
  set (w3 := add_log (set_fs w2 f3) []).
  assert (Hw3 : w_fs w3 = f3) by reflexivity.
  assert (Ht3 : ∀ x, x ≠ "scripts" → f3 !! [x] = F !! [x]).
  { intros x Hx. rewrite Fr3 by snap_frame. by apply Ht2. }
  assert (Hd3 : is_dir (w_fs w3) (snap_dir label) = true).
  { unfold is_dir in *. by rewrite Hw3, Fr3 by snap_frame. }
  (* [ -f tsconfig.json ] && cp *)
  destruct (guarded_cp_file_ok "tsconfig.json" (snap_dir label) w3 Hd3)
    as [f4 [E4 [Fr4 Sk4]]].
  rewrite Hw3 in Fr4, Sk4, Hd3.
  rewrite (run_steps_cons_ok _ _ _ _ E4).
  set (w4 := add_log (set_fs w3 f4) []).
  assert (Hw4 : w_fs w4 = f4) by reflexivity.
  assert (Ht4 : ∀ x, x ≠ "scripts" → f4 !! [x] = F !! [x]).
  { intros x Hx. rewrite Fr4 by snap_frame. by apply Ht3. }
  assert (Hd4 : is_dir (w_fs w4) (snap_dir label) = true).
  { unfold is_dir in *. by rewrite Hw4, Fr4 by snap_frame. }
  (* cp package.json *)
  pose proof (cp_package_ok (snap_dir label) w4 Hd4) as P5.
  revert P5.
  case_eq (exec (Step (lift (cp_file "package.json" (snap_dir label))) []) w4).
  intros c5 w5 E5.
  assert (Hpk : is_file (w_fs w4) ["package.json"] = is_file F ["package.json"]).
  { unfold is_file. rewrite Hw4. by rewrite Ht4. }
  destruct (Z.eq_dec c5 0) as [->|Hc5]; cycle 1.
  { rewrite (run_steps_cons_fail _ _ _ _ _ E5 Hc5). destruct c5; [done| |];
    intros [Hp ->]; by rewrite <- Hpk. }
  intros [Hp5 [_ Fr5]]. rewrite Hw4 in Fr5.
  rewrite (run_steps_cons_ok _ _ _ _ E5).
  set (w5' := add_log w5 []).
  set (f5 := w_fs w5) in *.
  assert (Hw5 : w_fs w5' = f5) by reflexivity.
  assert (Hd5 : f5 !! snap_dir label = Some Dir).
  { rewrite Fr5 by snap_frame. unfold is_dir in Hd4. rewrite Hw4 in Hd4.
    by destruct (f4 !! snap_dir label) as [[]|]. }
  (* cp -r docs-generated/ *)
  destruct (guarded_cp_r_ok "docs-generated" (snap_dir label) w5') as [f6 [E6 [Fr6 Sk6]]].
  rewrite Hw5 in Fr6, Sk6.
  rewrite (run_steps_cons_ok _ _ _ _ E6).
  set (w6 := add_log (set_fs w5' f6) []).
  assert (Hw6 : w_fs w6 = f6) by reflexivity.
  (* the tree listing *)
  assert (Hd6 : is_dir (w_fs w6) (snap_dir label) = true).
  { unfold is_dir. rewrite Hw6, Fr6 by snap_frame. by rewrite Hd5. }
  assert (Ht6 : is_dir (w_fs w6) (snap_dir label ++ ["tree.txt"]) = false).
  { unfold is_dir. rewrite Hw6, Fr6, Fr5, Fr4, Fr3, Fr2 by snap_frame. by rewrite Hs1. }
  rewrite (run_steps_cons_ok _ _ _ _ (tree_step_ok label w6 Hd6 Ht6)).
  cbn [run_steps add_log set_fs w_fs]. rewrite Hw6.
  split; [by rewrite <- Hpk|]. split; [|split; [|split]].
  - intros Hsrc r. rewrite lookup_insert_ne, Fr6, Fr5, Fr4, Fr3 by snap_frame.
    rewrite Sk2; [apply Hs1|]. unfold is_dir in *. by rewrite Ht1.
  - intros Hc. rewrite lookup_insert_ne, Fr6, Fr5, Fr4 by snap_frame.
    rewrite Sk3; [rewrite Fr2 by snap_frame; apply Hs1|].
    unfold is_file in *. by rewrite Ht2.
  - intros Hc. rewrite lookup_insert_ne, Fr6, Fr5 by snap_frame.
    rewrite Sk4; [rewrite Fr3, Fr2 by snap_frame; apply Hs1|].
    unfold is_file in *. by rewrite Ht3.
  - intros Hdg r. rewrite lookup_insert_ne by snap_frame. rewrite Sk6.
    + rewrite Fr5, Fr4, Fr3, Fr2 by snap_frame. apply Hs1.
    + unfold is_dir in *. rewrite Fr5 by snap_frame. by rewrite Ht4.
Qed.

Lemma fresh_under (p : path) (f : gmap path entry) :
  forallb (λ kv : path * entry, negb (bool_decide (p `prefix_of` kv.1))) (map_to_list f) = true →
  ∀ k, p `prefix_of` k → f !! k = None.
Proof.
  intros H k Hk. destruct (f !! k) as [e|] eqn:E; [|done].
  apply elem_of_map_to_list in E. apply list_elem_of_In in E.
  rewrite forallb_forall in H. specialize (H _ E). simpl in H.
  rewrite bool_decide_true in H by done. discriminate.
Qed.

(** C3, witness: the first snapshot of a project that has a manifest and
    nothing else. *)
Lemma snapshot_skips_missing_witness :
  match run_steps (snapshot_files "00-setup") (world_of project_fs) with
  | Done w' =>
      is_file project_fs ["package.json"] = true ∧
      (is_dir project_fs ["src"] = false →
         ∀ r, w_fs w' !! (snap_dir "00-setup" ++ "src" :: r) = None) ∧
      (is_file project_fs ["delivery-process.config.ts"] = false →
         w_fs w' !! (snap_dir "00-setup" ++ ["delivery-process.config.ts"]) = None) ∧
      (is_file project_fs ["tsconfig.json"] = false →
         w_fs w' !! (snap_dir "00-setup" ++ ["tsconfig.json"]) = None) ∧
      (is_dir project_fs ["docs-generated"] = false →
         ∀ r, w_fs w' !! (snap_dir "00-setup" ++ "docs-generated" :: r) = None)
  | Aborted c _ => is_file project_fs ["package.json"] = false ∧ c = 1
  end.
Proof.
  apply (snapshot_skips_missing "00-setup" (world_of project_fs));
    [vm_compute; reflexivity.. |].
  apply fresh_under. vm_compute. reflexivity.
Defined.

(** C3, counterexample: without [package.json] the Snapshot Capturer does
    not skip the manifest; [cp package.json] fails and the script stops
    with status 1. *)
Lemma snapshot_missing_manifest_cex :
  exit_code (run_steps (snapshot_files "00-setup") (world_of (delete ["package.json"] project_fs))) = 1.
Proof. vm_compute. reflexivity. Qed.

(** *** C5: the tree listing *)

Lemma string_app_nil_l (a : string) : "" +:+ a = a.
Proof. reflexivity. Qed.






Lemma string_leb_spec (a b : string) : String.leb a b = true ↔ String_as_OT.lt a b ∨ a = b.
Proof.
  unfold String.leb. rewrite <- String_as_OT.cmp_lt, <- String_as_OT.cmp_eq. unfold String_as_OT.cmp.
  destruct (String.compare a b); intuition congruence.
Qed.

Lemma string_compare_spec (a b : string) :
  (String.compare a b = Lt ↔ String_as_OT.lt a b) ∧ (String.compare a b = Eq ↔ a = b).
Proof. split; [apply String_as_OT.cmp_lt|apply String_as_OT.cmp_eq]. Qed.

Lemma string_leb_trans (a b c : string) :
  String.leb a b = true → String.leb b c = true → String.leb a c = true.
Proof.
  intros H1 H2. apply string_leb_spec in H1, H2. apply string_leb_spec.
  destruct H1 as [H1| ->]; destruct H2 as [H2| ->]; auto.
  left. by apply (String_as_OT.lt_trans _ b).
Qed.

Lemma sort_le_spec (xfrm : string -> string) (a b : string) :
  sort_le xfrm a b = true ↔
  String_as_OT.lt (xfrm a) (xfrm b) ∨ (xfrm a = xfrm b ∧ String.leb a b = true).
Proof.
  unfold sort_le. destruct (string_compare_spec (xfrm a) (xfrm b)) as [Hl He].
  destruct (String.compare (xfrm a) (xfrm b)).
  - split; [intros; right; split; [by apply He|done]|intros [H|[_ H]]; [|done]].
    apply Hl in H. discriminate.
  - split; [intros; left; by apply Hl|done].
  - split; [discriminate|]. intros [H|[H _]]; [apply Hl in H|apply He in H]; discriminate.
Qed.

Lemma sort_le_total (xfrm : string -> string) (a b : string) :
  sort_le xfrm a b = false → sort_le xfrm b a = true.
Proof.
  unfold sort_le. rewrite (String.compare_antisym (xfrm b) (xfrm a)).
  destruct (String.compare (xfrm a) (xfrm b)); simpl; try done.
  intros H. destruct (String.leb_total a b); congruence.
Qed.

Lemma sort_le_trans (xfrm : string -> string) (a b c : string) :
  sort_le xfrm a b = true → sort_le xfrm b c = true → sort_le xfrm a c = true.
Proof.
  rewrite !sort_le_spec. intros [H1|[E1 H1]] [H2|[E2 H2]].
  - left. by apply (String_as_OT.lt_trans _ (xfrm b)).
  - left. by rewrite <- E2.
  - left. by rewrite E1.
  - right. split; [congruence|]. by apply (string_leb_trans _ b).
Qed.

Lemma sort_le_antisym (xfrm : string -> string) (a b : string) :
  sort_le xfrm a b = true → sort_le xfrm b a = true → a = b.
Proof.
  unfold sort_le. rewrite (String.compare_antisym (xfrm b) (xfrm a)).
  destruct (String.compare (xfrm a) (xfrm b)); simpl; try discriminate.
  apply String.leb_antisym.
Qed.



Lemma insert_sorted_perm (xfrm : string -> string) (x : string) (l : list string) :
  insert_sorted xfrm x l ≡ₚ x :: l.
Proof.
  induction l as [|y l IH]; simpl; [done|].
  destruct (sort_le xfrm x y); [done|]. rewrite IH. apply Permutation_swap.
Qed.

Lemma isort_perm (xfrm : string -> string) (l : list string) : isort xfrm l ≡ₚ l.
Proof. induction l as [|x l IH]; simpl; [done|]. by rewrite insert_sorted_perm, IH. Qed.

Lemma insert_sorted_hd (xfrm : string -> string) (x y : string) (l : list string) :
  HdRel (λ a b, sort_le xfrm a b = true) y l → sort_le xfrm y x = true →
  HdRel (λ a b, sort_le xfrm a b = true) y (insert_sorted xfrm x l).
Proof.
  intros Hh Hyx. destruct l as [|z l]; simpl; [by constructor|].
  destruct (sort_le xfrm x z); constructor; [done|]. by inversion Hh.
Qed.

Lemma insert_sorted_sorted (xfrm : string -> string) (x : string) (l : list string) :
  Sorted (λ a b, sort_le xfrm a b = true) l →
  Sorted (λ a b, sort_le xfrm a b = true) (insert_sorted xfrm x l).
Proof.
  induction 1 as [|y l Hs IH Hh]; simpl; [repeat constructor|].
  destruct (sort_le xfrm x y) eqn:E.
  - constructor; [by constructor|by constructor].
  - constructor; [done|]. apply insert_sorted_hd; [done|]. by apply sort_le_total.
Qed.

Lemma isort_sorted (xfrm : string -> string) (l : list string) :
  Sorted (λ a b, sort_le xfrm a b = true) (isort xfrm l).
Proof. induction l as [|x l IH]; simpl; [constructor|]. by apply insert_sorted_sorted. Qed.

Lemma gmatch_star (s : string) : gmatch "*" s = true.
Proof. induction s as [|c s IH]; simpl in *; [done|]. by rewrite IH. Qed.

Lemma gmatch_prefix (d rest : string) :
  forallb (λ c, negb (Ascii.eqb c "*"%char)) (list_ascii_of_string d) = true →
  gmatch (d +:+ "*") (d +:+ rest) = true.
Proof.
  induction d as [|c d IH]; intros Hd.
  - rewrite !string_app_nil_l. apply gmatch_star.
  - rewrite !string_app_cons. simpl in Hd. apply andb_prop in Hd as [Hc Hd].
    cbn [gmatch]. destruct (Ascii.eqb c "*"%char); [discriminate|].
    rewrite Ascii.eqb_refl. simpl. by apply IH.
Qed.

Lemma excluded_patterns_dirs : excluded_patterns = map (λ d, d +:+ "*") excluded_dirs.
Proof. reflexivity. Qed.

Lemma listed_not_under (p : string) :
  listed p = true → ∀ d, In d excluded_dirs → ∀ rest, p ≠ d +:+ rest.
Proof.
  intros Hl d Hd rest ->. unfold listed in Hl. rewrite forallb_forall in Hl.
  specialize (Hl (d +:+ "*")). rewrite excluded_patterns_dirs in Hl.
  specialize (Hl (in_map _ _ _ Hd)). rewrite gmatch_prefix in Hl; [discriminate|].
  assert (Hs : Forall (λ d, forallb (λ c, negb (Ascii.eqb c "*"%char)) (list_ascii_of_string d) = true)
                 excluded_dirs) by (repeat constructor).
  rewrite Forall_forall in Hs. apply Hs. by apply list_elem_of_In.
Qed.






(** *** Invariants of a complete run *)

Lemma txt_neq_snapshots (c : string) : c +:+ ".txt" ≠ "snapshots".
Proof. intros H. do 10 (destruct c as [|? c]; [discriminate|]). discriminate. Qed.

Lemma snaps_neq_cell (c : string) : SNAPS ≠ cell_file c.
Proof. intros H. apply app_inj_tail in H as [_ H]. by apply (txt_neq_snapshots c). Qed.

Ltac len_neq :=
  let H := fresh in intros H; apply (f_equal length) in H;
  unfold SCRIPT_DIR, SNAPS, OUT, snap_dir, cell_file, ENVF in H;
  rewrite ?length_app in H; simpl in H; lia.

Ltac under_scripts :=
  unfold SCRIPT_DIR, SNAPS, OUT, snap_dir, cell_file, ENVF; cbn [app];
  apply prefix_cons, prefix_nil.

Lemma keeps4_refl (f : gmap path entry) : keeps4 f f.
Proof. intros k _ _. done. Qed.

Lemma keeps4_trans (f1 f2 f3 : gmap path entry) : keeps4 f1 f2 → keeps4 f2 f3 → keeps4 f1 f3.
Proof.
  intros H12 H23 k Hk Hl. destruct (H12 k Hk Hl), (H23 k Hk Hl). split; auto.
Qed.

Lemma holds_keeps (f f' : gmap path entry) (e : event) : keeps4 f f' → holds f e → holds f' e.
Proof.
  intros Hk. destruct e as [c| |l]; simpl; intros H.
  - apply (Hk (cell_file c)); [under_scripts|simpl; lia|done].
  - apply (Hk ENVF); [under_scripts|simpl; lia|done].
  - apply (Hk (snap_dir l)); [under_scripts|simpl; lia|done].
Qed.

Lemma block_ok_nil (P : world -> Prop) : block_ok P [].
Proof. intros w Hw. by exists w. Qed.

Lemma block_ok_app (P : world -> Prop) (ss1 ss2 : list step) :
  block_ok P ss1 → block_ok P ss2 → block_ok P (ss1 ++ ss2).
Proof.
  intros H1 H2 w Hw. destruct (H1 w Hw) as [w1 [E1 Hw1]].
  destruct (H2 w1 Hw1) as [w2 [E2 Hw2]]. exists w2. by rewrite run_steps_app, E1.
Qed.

Lemma block_ok_cons (P : world -> Prop) (s : step) (ss : list step) :
  block_ok P [s] → block_ok P ss → block_ok P (s :: ss).
Proof. intros H1 H2. apply (block_ok_app P [s] ss H1 H2). Qed.

(** A block that keeps the output directory sane, changes nothing of
    depth at most four but what it reports, and logs [m]. *)
Lemma inv_block (l0 : list event) (B : list step) (m : list event) :
  (∀ w, sane (w_fs w) → ∃ w', run_steps B w = Done w' ∧ sane (w_fs w') ∧
        keeps4 (w_fs w) (w_fs w') ∧ w_log w' = w_log w ++ m ∧ Forall (holds (w_fs w')) m) →
  block_ok (inv l0) B.
Proof.
  intros HB w [Hs [l [Hl [Hh [He Hsn]]]]]. destruct (HB w Hs) as [w' [E [Hs' [Hk [Hl' Hm]]]]].
  exists w'. split; [done|]. split; [done|]. exists (l ++ m). split; [|split; [|split]].
  - by rewrite Hl', Hl, app_assoc.
  - apply Forall_app. split; [|done]. eapply Forall_impl; [exact Hh|]. intros e. by apply holds_keeps.
  - by apply elem_of_app; left.
  - by apply elem_of_app; left.
Qed.

Lemma run_steps_single (s : step) (w : world) (f' : gmap path entry) :
  exec s w = (0, set_fs w f') → run_steps [s] w = Done (add_log (set_fs w f') (marks s)).
Proof. intros H. simpl. by rewrite H. Qed.

Lemma sane_lookup_eq (f f' : gmap path entry) :
  sane f → (∀ k, SCRIPT_DIR `prefix_of` k → f' !! k = f !! k) →
  f' !! ["package.json"] = f !! ["package.json"] → sane f'.
Proof.
  intros [Hp [H1 [H2 [H3 [H4 [H5 H6]]]]]] Heq Hpk.
  unfold sane, is_file, is_dir in *.
  rewrite Hpk, !Heq by under_scripts. repeat split; try done.
  - intros x Hx. rewrite Heq by under_scripts. by apply H4.
  - intros l. rewrite Heq by under_scripts. by apply H5.
  - intros l. rewrite Heq by under_scripts. by apply H6.
Qed.

Section Cells.

Variable runme : string -> gmap path entry -> string * Z * gmap path entry.

(** The cells leave [scripts/] alone ... *)
Hypothesis runme_scripts : ∀ c f out st f', runme c f = (out, st, f') →
  ∀ k, SCRIPT_DIR `prefix_of` k → f' !! k = f !! k.
(** ... and keep the manifest a regular file. *)
Hypothesis runme_manifest : ∀ c f out st f', runme c f = (out, st, f') →
  is_file f ["package.json"] = true → is_file f' ["package.json"] = true.

Lemma run_and_capture_sane (c : string) (w : world) :
  sane (w_fs w) →
  ∃ f', exec (run_and_capture runme c) w = (0, set_fs w f') ∧ sane f' ∧
    keeps4 (w_fs w) f' ∧ is_file f' (cell_file c) = true.
Proof.
  intros Hs. pose proof Hs as [Hp [H1 [H2 [H3 [H4 [H5 H6]]]]]].
  assert (Hnd : is_dir (w_fs w) (cell_file c) = false) by (apply H4, txt_neq_snapshots).
  cbn [exec run_and_capture].
  assert (Hcw : can_write (w_fs w) OUT (c +:+ ".txt") = true).
  { unfold can_write, is_dir. rewrite H2. unfold is_dir in Hnd. unfold cell_file in Hnd. by rewrite Hnd. }
  rewrite Hcw.
  destruct (runme c (<[cell_file c := File ""]> (w_fs w))) as [[out st] f2] eqn:E.
  assert (Hc2 : f2 !! cell_file c = Some (File "")).
  { rewrite (runme_scripts _ _ _ _ _ E) by under_scripts. by rewrite lookup_insert_eq. }
  rewrite Hc2. exists (<[cell_file c := File out]> f2).
  assert (Heq : ∀ k, SCRIPT_DIR `prefix_of` k → k ≠ cell_file c →
                <[cell_file c := File out]> f2 !! k = w_fs w !! k).
  { intros k Hk Hne. rewrite lookup_insert_ne by congruence.
    rewrite (runme_scripts _ _ _ _ _ E k Hk). by rewrite lookup_insert_ne by congruence. }
  assert (Hfile : is_file (<[cell_file c := File out]> f2) (cell_file c) = true).
  { unfold is_file. by rewrite lookup_insert_eq. }
  split; [done|]. split; [|split; [|done]].
  - assert (Hpk : is_file f2 ["package.json"] = true).
    { apply (runme_manifest _ _ _ _ _ E). unfold is_file in *.
      rewrite lookup_insert_ne by len_neq. done. }
    unfold sane, is_file, is_dir in *.
    rewrite lookup_insert_ne by len_neq. rewrite !Heq by (under_scripts || len_neq || apply snaps_neq_cell).
    repeat split; try done.
    + intros x Hx. destruct (decide (x = c +:+ ".txt")) as [->|Hne].
      * change (OUT ++ [c +:+ ".txt"]) with (cell_file c). by rewrite lookup_insert_eq.
      * rewrite Heq; [by apply H4|under_scripts|]. intros Hc. apply Hne.
        unfold cell_file in Hc. by apply app_inj_tail in Hc as [_ ?].
    + intros l. rewrite Heq by (under_scripts || len_neq). apply H5.
    + intros l. rewrite Heq by (under_scripts || len_neq). apply H6.
  - intros k Hk Hl. destruct (decide (k = cell_file c)) as [->|Hne].
    + split; [done|]. by rewrite Hnd.
    + unfold is_file, is_dir. by rewrite Heq.
Qed.

End Cells.

Lemma capture_environment_sane (json_version : string -> option (option string)) (w : world) :
  sane (w_fs w) →
  ∃ f', exec (capture_environment json_version) w = (0, set_fs w f') ∧ sane f' ∧
    keeps4 (w_fs w) f' ∧ is_file f' ENVF = true.
Proof.
  intros Hs. pose proof Hs as [Hp [H1 [H2 [H3 [H4 [H5 H6]]]]]].
  assert (Hnd : is_dir (w_fs w) ENVF = false) by (apply H4; discriminate).
  cbn [exec capture_environment].
  assert (Hcw : can_write (w_fs w) OUT "environment.txt" = true).
  { unfold can_write, is_dir. rewrite H2. unfold is_dir, ENVF in Hnd. by rewrite Hnd. }
  rewrite Hcw. eexists. split; [reflexivity|].
  set (f' := <[ENVF := File (env_contents json_version w)]> (w_fs w)).
  assert (Heq : ∀ k, k ≠ ENVF → f' !! k = w_fs w !! k).
  { intros k Hne. by apply lookup_insert_ne. }
  assert (Hfile : is_file f' ENVF = true) by (unfold is_file, f'; by rewrite lookup_insert_eq).
  split; [|split; [|done]].
  - unfold sane, is_file, is_dir in *.
    rewrite !Heq by (len_neq || (unfold SNAPS, ENVF, OUT; intros ?; simplify_eq)). repeat split; try done.
    + intros x Hx. destruct (decide (x = "environment.txt")) as [->|Hne].
      * change (OUT ++ ["environment.txt"]) with ENVF. unfold f'. by rewrite lookup_insert_eq.
      * rewrite Heq; [by apply H4|]. intros Hc. apply Hne.
        unfold ENVF in Hc. by apply app_inj_tail in Hc as [_ ?].
    + intros l. rewrite Heq by len_neq. apply H5.
    + intros l. rewrite Heq by len_neq. apply H6.
  - intros k Hk Hl. destruct (decide (k = ENVF)) as [->|Hne].
    + split; [done|]. by rewrite Hnd.
    + unfold is_file, is_dir. by rewrite Heq.
Qed.

Lemma crit_not_under (label name : string) (k : path) :
  name ≠ "tree.txt" → crit k → ¬ (snap_dir label ++ [name]) `prefix_of` k.
Proof.
  intros Hn [Hl|[l ->]] Hp.
  - apply prefix_length in Hp. unfold snap_dir, SNAPS, OUT in Hp.
    rewrite !length_app in Hp. simpl in Hp. lia.
  - apply prefix_length_eq in Hp;
      [|unfold snap_dir, SNAPS, OUT; rewrite !length_app; simpl; lia].
    apply app_inj_tail in Hp as [_ ?]. congruence.
Qed.

Lemma crit_neq (label name : string) (k : path) :
  name ≠ "tree.txt" → crit k → k ≠ snap_dir label ++ [name].
Proof. intros Hn Hk ->. by apply (crit_not_under label name _ Hn Hk). Qed.

Lemma crit_short (k : path) : (length k ≤ 4)%nat → crit k.
Proof. by left. Qed.

Ltac crit_goal :=
  first [ apply crit_short; unfold snap_dir, SNAPS, OUT, ENVF, SCRIPT_DIR; rewrite ?length_app; simpl; lia
        | assumption | unfold crit; right; eexists; reflexivity ].

Ltac crit_tac :=
  first [ apply crit_not_under; [discriminate|]; crit_goal
        | apply crit_neq; [discriminate|]; crit_goal
        | crit_goal ].

Lemma snap_dir_inj (l1 l2 : string) : snap_dir l1 = snap_dir l2 → l1 = l2.
Proof. intros H. by apply app_inj_tail in H as [_ ?]. Qed.

(** [snapshot_files label] on a sane output directory: it completes,
    keeps the output directory sane, creates the snapshot directory and
    changes nothing else of depth at most four. *)
Lemma snapshot_files_sane (label : string) (w : world) :
  sane (w_fs w) →
  ∃ w', run_steps (snapshot_files label) w = Done w' ∧ sane (w_fs w') ∧
    keeps4 (w_fs w) (w_fs w') ∧ w_log w' = w_log w ++ [ESnap label] ∧
    is_dir (w_fs w') (snap_dir label) = true.
Proof.
  intros Hs. pose proof Hs as [Hp [H1 [H2 [H3 [H4 [H5 H6]]]]]].
  set (F := w_fs w) in *.
  set (f1 := <[snap_dir label := Dir]> (<[SNAPS := Dir]> (<[OUT := Dir]> (<[SCRIPT_DIR := Dir]> F)))).
  assert (Hd1 : f1 !! snap_dir label = Some Dir) by (unfold f1; apply lookup_insert_eq).
  assert (Hf1 : ∀ k, k ≠ snap_dir label → f1 !! k = F !! k).
  { intros k Hk. unfold f1. rewrite lookup_insert_ne by congruence.
    destruct (decide (k = SNAPS)) as [->|Hk1]; [by rewrite lookup_insert_eq|].
    rewrite lookup_insert_ne by congruence.
    destruct (decide (k = OUT)) as [->|Hk2]; [by rewrite lookup_insert_eq|].
    rewrite lookup_insert_ne by congruence.
    destruct (decide (k = SCRIPT_DIR)) as [->|Hk3]; [by rewrite lookup_insert_eq|].
    by rewrite lookup_insert_ne by congruence. }
  unfold snapshot_files. cbv zeta.
  rewrite (run_steps_cons_ok _ _ _ (set_fs w f1)); cycle 1.
  { cbn [exec]. unfold lift. fold F.
    rewrite mkdir_snap_dir; [reflexivity|unfold is_file; by rewrite ?H1, ?H2, ?H3..|apply H5]. }
  set (w1 := add_log (set_fs w f1) []).
  assert (Hw1 : w_fs w1 = f1) by reflexivity.
  destruct (guarded_cp_r_ok "src" (snap_dir label) w1) as [f2 [E2 [Fr2 _]]].
  rewrite Hw1 in Fr2. rewrite (run_steps_cons_ok _ _ _ _ E2).
  set (w2 := add_log (set_fs w1 f2) []).
  assert (Hw2 : w_fs w2 = f2) by reflexivity.
  assert (Hd2 : is_dir (w_fs w2) (snap_dir label) = true).
  { unfold is_dir. rewrite Hw2, Fr2 by crit_tac. by rewrite Hd1. }
  destruct (guarded_cp_file_ok "delivery-process.config.ts" (snap_dir label) w2 Hd2)
    as [f3 [E3 [Fr3 _]]].
  rewrite Hw2 in Fr3. rewrite (run_steps_cons_ok _ _ _ _ E3).
  set (w3 := add_log (set_fs w2 f3) []).
  assert (Hw3 : w_fs w3 = f3) by reflexivity.
  assert (Hd3 : is_dir (w_fs w3) (snap_dir label) = true).
  { unfold is_dir. rewrite Hw3, Fr3, Fr2 by crit_tac. by rewrite Hd1. }
  destruct (guarded_cp_file_ok "tsconfig.json" (snap_dir label) w3 Hd3)
    as [f4 [E4 [Fr4 _]]].
  rewrite Hw3 in Fr4. rewrite (run_steps_cons_ok _ _ _ _ E4).
  set (w4 := add_log (set_fs w3 f4) []).
  assert (Hw4 : w_fs w4 = f4) by reflexivity.
  assert (Hd4 : is_dir (w_fs w4) (snap_dir label) = true).
  { unfold is_dir. rewrite Hw4, Fr4, Fr3, Fr2 by crit_tac. by rewrite Hd1. }
  pose proof (cp_package_ok (snap_dir label) w4 Hd4) as P5.
  revert P5.
  case_eq (exec (Step (lift (cp_file "package.json" (snap_dir label))) []) w4).
  intros c5 w5 E5.
  assert (Hpk : is_file (w_fs w4) ["package.json"] = true).
  { unfold is_file in *. rewrite Hw4, Fr4, Fr3, Fr2 by crit_tac.
    rewrite Hf1 by len_neq. done. }
  destruct (Z.eq_dec c5 0) as [->|Hc5]; cycle 1.
  { destruct c5; [done| |]; intros [Hp' _]; rewrite Hpk in Hp'; discriminate. }
  intros [_ [Hl5 Fr5]]. rewrite Hw4 in Fr5.
  rewrite (run_steps_cons_ok _ _ _ _ E5).
  set (w5' := add_log w5 []).
  set (f5 := w_fs w5) in *.
  assert (Hw5 : w_fs w5' = f5) by reflexivity.
  destruct (guarded_cp_r_ok "docs-generated" (snap_dir label) w5') as [f6 [E6 [Fr6 _]]].
  rewrite Hw5 in Fr6. rewrite (run_steps_cons_ok _ _ _ _ E6).
  set (w6 := add_log (set_fs w5' f6) []).
  assert (Hw6 : w_fs w6 = f6) by reflexivity.
  assert (Hc6 : ∀ k, crit k → f6 !! k = f1 !! k).
  { intros k Hk. rewrite Fr6, Fr5, Fr4, Fr3, Fr2 by crit_tac. done. }
  assert (Hd6 : is_dir (w_fs w6) (snap_dir label) = true).
  { unfold is_dir. rewrite Hw6, Hc6 by crit_tac. by rewrite Hd1. }
  assert (Ht6 : is_dir (w_fs w6) (snap_dir label ++ ["tree.txt"]) = false).
  { unfold is_dir. rewrite Hw6, Hc6 by (unfold crit; right; by exists label). rewrite Hf1 by len_neq. apply H6. }
  rewrite (run_steps_cons_ok _ _ _ _ (tree_step_ok label w6 Hd6 Ht6)).
  set (f7 := <[snap_dir label ++ ["tree.txt"] := File (tree_listing (w_xfrm w6) (w_fs w6))]> (w_fs w6)).
  assert (Hc7 : ∀ k, crit k → k ≠ snap_dir label ++ ["tree.txt"] → f7 !! k = f1 !! k).
  { intros k Hk Hne. unfold f7. rewrite lookup_insert_ne by congruence. rewrite Hw6. by apply Hc6. }
  cbn [run_steps]. eexists. split; [reflexivity|].
  cbn [w_fs w_log add_log set_fs]. fold f7.
  split; [|split; [|split]].
  - unfold sane. repeat split.
    + unfold is_file. rewrite Hc7 by (try apply crit_short; simpl; lia || len_neq).
      rewrite Hf1 by len_neq. apply Hp.
    + rewrite Hc7 by (try apply crit_short; simpl; lia || len_neq). by rewrite Hf1 by len_neq.
    + rewrite Hc7 by (try apply crit_short; simpl; lia || len_neq). by rewrite Hf1 by len_neq.
    + rewrite Hc7 by (try apply crit_short; unfold SNAPS, OUT; simpl; lia || len_neq).
      by rewrite Hf1 by len_neq.
    + intros x Hx. unfold is_dir. rewrite Hc7 by (try apply crit_short; unfold OUT; simpl; lia || len_neq).
      rewrite Hf1 by len_neq. by apply H4.
    + intros l. unfold is_file.
      rewrite Hc7 by (try apply crit_short; unfold snap_dir, SNAPS, OUT; simpl; lia || len_neq).
      destruct (decide (l = label)) as [->|Hne]; [by rewrite Hd1|].
      rewrite Hf1 by (intros ?%snap_dir_inj; congruence). apply H5.
    + intros l. unfold is_dir.
      destruct (decide (l = label)) as [->|Hne]; [unfold f7; by rewrite lookup_insert_eq|].
      rewrite Hc7; [|unfold crit; right; by exists l|].
      * rewrite Hf1 by len_neq. apply H6.
      * intros Heq. apply app_inj_tail in Heq as [Heq _]. apply snap_dir_inj in Heq. congruence.
  - intros k Hk Hl. unfold is_file, is_dir. rewrite Hc7 by (by left || (intros ->; rewrite length_app in Hl; unfold snap_dir, SNAPS, OUT in Hl; rewrite !length_app in Hl; simpl in Hl; lia)).
    destruct (decide (k = snap_dir label)) as [->|Hne].
    + rewrite Hd1. split; [|done]. intros Hf. pose proof (H5 label) as H5'.
      unfold is_file in H5'. by rewrite H5' in Hf.
    + by rewrite Hf1.
  - cbn [w_log]. unfold w6, w5', w4, w3, w2, w1. cbn [w_log add_log set_fs]. rewrite Hl5.
    unfold w4, w3, w2, w1. cbn [w_log add_log set_fs]. by rewrite !app_nil_r.
  - unfold is_dir. rewrite Hc7 by (try apply crit_short; unfold snap_dir, SNAPS, OUT; simpl; lia || len_neq).
    by rewrite Hd1.
Qed.

(** *** The prelude and the summary *)

Lemma rm_rf_lookup (p k : path) (f : gmap path entry) :
  rm_rf p f !! k = if decide (p `prefix_of` k) then None else f !! k.
Proof.
  unfold rm_rf. rewrite map_lookup_filter.
  destruct (f !! k) as [e|]; simpl; case_decide as Hp; simpl; try done.
  - rewrite option_guard_False; [done|]. simpl. tauto.
  - rewrite option_guard_True; done.
Qed.

Lemma prelude_sane (w : world) :
  is_file (w_fs w) SCRIPT_DIR = false → is_file (w_fs w) ["package.json"] = true →
  ∃ w', run_steps prelude w = Done w' ∧ sane (w_fs w') ∧ w_log w' = w_log w.
Proof.
  intros Hsd Hp.
  remember (rm_rf OUT (w_fs w)) as f1 eqn:Ef1.
  assert (Hf1 : ∀ k, f1 !! k = if decide (OUT `prefix_of` k) then None else w_fs w !! k)
    by (intros k; subst f1; apply rm_rf_lookup).
  assert (Hout : ∀ k, OUT `prefix_of` k → f1 !! k = None).
  { intros k Hk. rewrite Hf1. by rewrite decide_True. }
  assert (Hsc : f1 !! SCRIPT_DIR = w_fs w !! SCRIPT_DIR).
  { rewrite Hf1. rewrite decide_False; [done|]. intros Hq. apply prefix_length in Hq. simpl in Hq. lia. }
  set (f2 := <[SNAPS := Dir]> (<[OUT := Dir]> (<[SCRIPT_DIR := Dir]> f1))).
  assert (Hmk : mkdir_p SNAPS f1 = (0, f2)).
  { unfold mkdir_p, SNAPS, OUT. cbn [mkdir_p_go app].
    unfold SCRIPT_DIR in Hsc. rewrite Hsc. unfold is_file, SCRIPT_DIR in Hsd.
    assert (Ho : <[["scripts"] := Dir]> f1 !! ["scripts"; "outputs"] = None).
    { rewrite lookup_insert_ne by discriminate. apply Hout. by exists []. }
    assert (Hn : <[["scripts"; "outputs"] := Dir]> (<[["scripts"] := Dir]> f1)
                   !! ["scripts"; "outputs"; "snapshots"] = None).
    { rewrite !lookup_insert_ne by discriminate. apply Hout. by exists ["snapshots"]. }
    destruct (w_fs w !! ["scripts"]) as [[c|]|]; [discriminate| |];
      rewrite Ho, Hn; reflexivity. }
  exists (add_log (set_fs (add_log (set_fs w f1) []) f2) []). split; [|split].
  - unfold prelude. cbn [run_steps exec]. rewrite <- Ef1. cbn [Z.eqb lift].
    cbn [marks]. unfold lift. change (w_fs (add_log (set_fs w f1) [])) with f1. rewrite Hmk. reflexivity.
  - cbn [w_fs add_log set_fs]. unfold sane, is_file, is_dir.
    assert (Hf2 : ∀ k, OUT `prefix_of` k → k ≠ OUT → k ≠ SNAPS → f2 !! k = None).
    { intros k Hk H1 H2. unfold f2. rewrite !lookup_insert_ne; [by apply Hout|..]; try congruence.
      intros <-. apply prefix_length in Hk. simpl in Hk. lia. }
    assert (Hpk : f2 !! ["package.json"] = w_fs w !! ["package.json"]).
    { unfold f2. rewrite !lookup_insert_ne by discriminate. rewrite Hf1, decide_False; [done|].
      intros [? Hq]. discriminate. }
    rewrite Hpk. unfold is_file in Hp. rewrite Hp. split; [done|].
    unfold f2. rewrite lookup_insert_eq. rewrite (lookup_insert_ne _ SNAPS OUT) by discriminate.
    rewrite lookup_insert_eq.
    rewrite (lookup_insert_ne _ SNAPS SCRIPT_DIR), (lookup_insert_ne _ OUT SCRIPT_DIR) by discriminate.
    rewrite lookup_insert_eq. fold f2. do 3 (split; [done|]). split; [|split].
    + intros x Hx. rewrite Hf2; [done|by exists [x]|len_neq|].
      intros Hq. apply Hx. unfold SNAPS in Hq. by apply app_inj_tail in Hq as [_ ?].
    + intros l. rewrite Hf2; [done|by exists ["snapshots"; l]|len_neq|len_neq].
    + intros l. rewrite Hf2; [done|by exists ["snapshots"; l; "tree.txt"]|len_neq|len_neq].
  - simpl. by rewrite !app_nil_r.
Qed.

Lemma has_child_intro (f : gmap path entry) (dir k : path) (n : string) (e : entry)
    (pred : string -> entry -> bool) :
  f !! k = Some e → strip_prefix dir k = Some [n] → pred n e = true → has_child f dir pred = true.
Proof.
  intros Hk Hs Hp. unfold has_child. apply existsb_exists. exists (k, e). split.
  - apply list_elem_of_In, elem_of_map_to_list, Hk.
  - simpl. by rewrite Hs.
Qed.

(** Once the environment is recorded and a snapshot taken, both [ls]
    pipelines of the summary find something. *)
Lemma summary_block (l0 : list event) : block_ok (inv l0) summary.
Proof.
  intros w Hi. pose proof Hi as [Hs [l [Hl [Hh [He Hsn]]]]].
  rewrite Forall_forall in Hh.
  pose proof (Hh _ He) as HE. pose proof (Hh _ Hsn) as HS. simpl in HE, HS.
  unfold is_file in HE. unfold is_dir in HS.
  destruct (w_fs w !! ENVF) as [[c|]|] eqn:Ee; try discriminate.
  destruct (w_fs w !! snap_dir "00-setup") as [[c'|]|] eqn:Es; try discriminate.
  assert (H1 : has_child (w_fs w) OUT (fun n _ => not_hidden n && gmatch "*.txt" n) = true).
  { apply (has_child_intro _ _ ENVF "environment.txt" (File c)); [done|reflexivity|vm_compute; reflexivity]. }
  assert (H2 : has_child (w_fs w) SNAPS (fun n e => not_hidden n && bool_decide (e = Dir)) = true).
  { apply (has_child_intro _ _ (snap_dir "00-setup") "00-setup" Dir); [done|reflexivity|vm_compute; reflexivity]. }
  exists (add_log (add_log w []) []). split.
  - unfold summary. cbn [run_steps exec]. rewrite H1. cbn [Z.eqb marks w_fs add_log]. rewrite H2. reflexivity.
  - destruct w. unfold inv, add_log in *. cbn in *. by rewrite !app_nil_r.
Qed.

Section Run.

Variable runme : string -> gmap path entry -> string * Z * gmap path entry.

Hypothesis runme_scripts : ∀ c f out st f', runme c f = (out, st, f') →
  ∀ k, SCRIPT_DIR `prefix_of` k → f' !! k = f !! k.
Hypothesis runme_manifest : ∀ c f out st f', runme c f = (out, st, f') →
  is_file f ["package.json"] = true → is_file f' ["package.json"] = true.

Lemma rc_block (l0 : list event) (c : string) : block_ok (inv l0) [run_and_capture runme c].
Proof.
  apply (inv_block l0 _ [ECell c]). intros w Hs.
  destruct (run_and_capture_sane runme runme_scripts runme_manifest c w Hs) as [f' [E [Hs' [Hk Hf]]]].
  eexists. split; [by apply run_steps_single|]. simpl.
  split; [done|]. split; [done|]. split; [done|]. by constructor.
Qed.

(** Phase 0 from a sane output directory. *)
Lemma setup_inv (json_version : string -> option (option string)) (w : world) :
  sane (w_fs w) →
  ∃ w', run_steps ([run_and_capture runme "reset-workspace"; run_and_capture runme "install-deps";
                    capture_environment json_version] ++ snapshot_files "00-setup") w = Done w' ∧
        inv (w_log w) w'.
Proof.
  intros Hs0.
  destruct (run_and_capture_sane runme runme_scripts runme_manifest "reset-workspace" w Hs0)
    as [f1 [E1 [Hs1 [Hk1 Hc1]]]].
  set (w1 := add_log (set_fs w f1) [ECell "reset-workspace"]).
  assert (Hw1 : w_fs w1 = f1) by reflexivity.
  rewrite <- Hw1 in Hs1.
  destruct (run_and_capture_sane runme runme_scripts runme_manifest "install-deps" w1 Hs1)
    as [f2 [E2 [Hs2 [Hk2 Hc2]]]].
  set (w2 := add_log (set_fs w1 f2) [ECell "install-deps"]).
  assert (Hw2 : w_fs w2 = f2) by reflexivity.
  rewrite <- Hw2 in Hs2.
  destruct (capture_environment_sane json_version w2 Hs2) as [f3 [E3 [Hs3 [Hk3 Hc3]]]].
  set (w3 := add_log (set_fs w2 f3) [EEnv]).
  assert (Hw3 : w_fs w3 = f3) by reflexivity.
  rewrite <- Hw3 in Hs3.
  destruct (snapshot_files_sane "00-setup" w3 Hs3) as [w4 [E4 [Hs4 [Hk4 [Hl4 Hd4]]]]].
  exists w4. split.
  - rewrite run_steps_app. cbn [app].
    rewrite (run_steps_cons_ok _ _ _ _ E1). fold w1.
    rewrite (run_steps_cons_ok _ _ _ _ E2). fold w2.
    rewrite (run_steps_cons_ok _ _ _ _ E3). fold w3. cbn [run_steps]. exact E4.
  - split; [done|]. exists [ECell "reset-workspace"; ECell "install-deps"; EEnv; ESnap "00-setup"].
    split; [|split; [|split]].
    + rewrite Hl4. unfold w3, w2, w1. simpl. by rewrite <- !app_assoc.
    + rewrite Hw1, Hw2, Hw3 in *.
      repeat constructor; simpl; [| | |exact Hd4].
      * eapply holds_keeps with (e := ECell "reset-workspace"); [|exact Hc1].
        eapply keeps4_trans; [exact Hk2|]. eapply keeps4_trans; [exact Hk3|exact Hk4].
      * eapply holds_keeps with (e := ECell "install-deps"); [|exact Hc2].
        eapply keeps4_trans; [exact Hk3|exact Hk4].
      * eapply holds_keeps with (e := EEnv); [|exact Hc3]. exact Hk4.
    + set_solver.
    + set_solver.
Qed.

End Run.


Lemma snapshot_block (l0 : list event) (label : string) : block_ok (inv l0) (snapshot_files label).
Proof.
  apply (inv_block l0 _ [ESnap label]). intros w Hs.
  destruct (snapshot_files_sane label w Hs) as [w' [E [Hs' [Hk [Hl Hd]]]]].
  exists w'. do 4 (split; [done|]). by constructor.
Qed.

Section Run2.

Variable runme : string -> gmap path entry -> string * Z * gmap path entry.

Hypothesis runme_scripts : ∀ c f out st f', runme c f = (out, st, f') →
  ∀ k, SCRIPT_DIR `prefix_of` k → f' !! k = f !! k.
Hypothesis runme_manifest : ∀ c f out st f', runme c f = (out, st, f') →
  is_file f ["package.json"] = true → is_file f' ["package.json"] = true.

(** A run from a project with a manifest completes, and ends with every
    logged step's output in place. *)
Lemma script_run (json_version : string -> option (option string)) (w : world) :
  is_file (w_fs w) SCRIPT_DIR = false → is_file (w_fs w) ["package.json"] = true →
  ∃ w', run_steps (script runme json_version) w = Done w' ∧ inv (w_log w) w'.
Proof.
  intros Hsd Hp. destruct (prelude_sane w Hsd Hp) as [w1 [E1 [Hs1 Hl1]]].
  destruct (setup_inv runme runme_scripts runme_manifest json_version w1 Hs1) as [w2 [E2 Hi2]].
  rewrite Hl1 in Hi2.
  unfold script. cbv zeta. rewrite run_steps_app, E1.
  rewrite app_assoc, run_steps_app, E2.
  match goal with |- ∃ w', run_steps ?R w2 = Done w' ∧ _ =>
    enough (HB : block_ok (inv (w_log w)) R) by exact (HB w2 Hi2) end.
  repeat first [ apply snapshot_block | apply summary_block | apply block_ok_nil
               | apply block_ok_app
               | apply block_ok_cons; [apply (rc_block runme runme_scripts runme_manifest)|] ].
Qed.

End Run2.


Lemma script_cells_scheduled : Forall (λ c, ECell c ∈ schedule) script_cells.
Proof. apply (bool_decide_unpack _). vm_compute. exact I. Qed.

Lemma rm_rf_outside (p : path) (f f' : gmap path entry) :
  (∀ k, ¬ p `prefix_of` k → f' !! k = f !! k) → rm_rf p f' = rm_rf p f.
Proof.
  intros H. apply map_eq. intros k. rewrite !rm_rf_lookup. case_decide; [done|]. by apply H.
Qed.

(** *** C1: the exit status of a run *)

(** C1 (corrected).  Suppose the cells leave [scripts/] alone and keep
    [package.json] a regular file, and the project starts with a manifest
    and without a regular file named [scripts].  Then the script exits
    with status 0, whatever the exit statuses of the cells, those of
    the reset-workspace cell included: its failure cannot make the run
    fail.  Non-zero statuses come from the script's own unguarded
    statements instead (see the counterexample). *)
Theorem script_exit_zero runme json_version (w : world) :
  (∀ c f out st f', runme c f = (out, st, f') → ∀ k, SCRIPT_DIR `prefix_of` k → f' !! k = f !! k) →
  (∀ c f out st f', runme c f = (out, st, f') →
     is_file f ["package.json"] = true → is_file f' ["package.json"] = true) →
  is_file (w_fs w) SCRIPT_DIR = false → is_file (w_fs w) ["package.json"] = true →
  exit_code (run_steps (script runme json_version) w) = 0.
Proof.
  intros H1 H2 Hsd Hp.
  destruct (script_run runme H1 H2 json_version w Hsd Hp) as [w' [E _]]. by rewrite E.
Qed.

(** C1, witness: every cell fails, the reset-workspace cell first, and
    the run still exits with status 0. *)
Lemma script_exit_zero_witness :
  exit_code (run_steps (script failing_runme plain_json) (world_of project_fs)) = 0.
Proof.
  apply script_exit_zero.
  - intros c f out st f' H k _. unfold failing_runme in H. by inversion H.
  - intros c f out st f' H Hp. unfold failing_runme in H. by inversion H; subst.
  - vm_compute. reflexivity.
  - vm_compute. reflexivity.
Defined.

(** C1, counterexample: every cell succeeds, the reset-workspace cell
    included, but the project has no [package.json]: the unguarded
    [cp package.json] of the first snapshot fails and the run exits with
    status 1. *)
Lemma exit_code_manifest_cex :
  exit_code (run_steps (script quiet_runme plain_json)
               (world_of (delete ["package.json"] project_fs))) = 1.
Proof. vm_compute. reflexivity. Qed.

(** *** C8: one output file per cell *)

(** C8 (corrected).  Under the assumptions of [script_exit_zero] the run completes
    and every cell of the script has its output file at the end.  A rerun
    does not depend on what earlier runs left under [scripts/outputs/]:
    the script removes that directory first, so worlds that differ only
    there give the same run.  A run that aborts, though, leaves later
    cells without an output file (see the counterexample). *)
Theorem script_captures_every_cell runme json_version (w : world) :
  (∀ c f out st f', runme c f = (out, st, f') → ∀ k, SCRIPT_DIR `prefix_of` k → f' !! k = f !! k) →
  (∀ c f out st f', runme c f = (out, st, f') →
     is_file f ["package.json"] = true → is_file f' ["package.json"] = true) →
  is_file (w_fs w) SCRIPT_DIR = false → is_file (w_fs w) ["package.json"] = true →
  (∃ w', run_steps (script runme json_version) w = Done w' ∧
     ∀ c, c ∈ script_cells → is_file (w_fs w') (cell_file c) = true) ∧
  (∀ f2, (∀ k, ¬ OUT `prefix_of` k → f2 !! k = w_fs w !! k) →
     run_steps (script runme json_version) (set_fs w f2) = run_steps (script runme json_version) w).
Proof.
  intros H1 H2 Hsd Hp. split.
  - destruct (script_run runme H1 H2 json_version w Hsd Hp) as [w' [E [_ [l [Hl [Hh _]]]]]].
    exists w'. split; [done|]. intros c Hc.
    pose proof (script_run_log runme json_version w) as Ho. rewrite E in Ho.
    rewrite Hl in Ho. apply app_inv_head in Ho. subst l.
    rewrite Forall_forall in Hh. apply (Hh (ECell c)).
    by apply (proj1 (Forall_forall _ _) script_cells_scheduled).
  - intros f2 Hf2. unfold script. cbv zeta. rewrite !(run_steps_app prelude).
    assert (Hpre : run_steps prelude (set_fs w f2) = run_steps prelude w).
    { unfold prelude. cbn [run_steps exec w_fs set_fs]. rewrite (rm_rf_outside OUT (w_fs w) f2 Hf2).
      reflexivity. }
    by rewrite Hpre.
Qed.

(** C8, witness: the project with a manifest, every cell succeeding. *)
Lemma script_captures_every_cell_witness :
  (∃ w', run_steps (script quiet_runme plain_json) (world_of project_fs) = Done w' ∧
     ∀ c, c ∈ script_cells → is_file (w_fs w') (cell_file c) = true) ∧
  (∀ f2, (∀ k, ¬ OUT `prefix_of` k → f2 !! k = project_fs !! k) →
     run_steps (script quiet_runme plain_json) (set_fs (world_of project_fs) f2) =
     run_steps (script quiet_runme plain_json) (world_of project_fs)).
Proof.
  apply (script_captures_every_cell quiet_runme plain_json (world_of project_fs)).
  - intros c f out st f' H k _. unfold quiet_runme in H. by inversion H.
  - intros c f out st f' H Hp. unfold quiet_runme in H. by inversion H; subst.
  - vm_compute. reflexivity.
  - vm_compute. reflexivity.
Defined.

(** C8, counterexample: without [package.json] the run aborts at the first
    snapshot, and the cells of Part 1 have no output file. *)
Lemma missing_output_cex :
  is_file (w_fs (final_world (run_steps (script quiet_runme plain_json)
                                (world_of (delete ["package.json"] project_fs)))))
          (cell_file "verify-deps") = false.
Proof. vm_compute. reflexivity. Qed.


(** *** Witnesses for the Step Runner and the Environment Recorder *)

(** C2, witness: a failing cell run with the output directory in place. *)
Lemma run_and_capture_captures_witness :
  (exec (run_and_capture failing_runme "reset-workspace") (world_of (<[OUT := Dir]> project_fs))).1 = 0 ∧
  ∃ out st f2 f',
    failing_runme "reset-workspace"
      (<[cell_file "reset-workspace" := File ""]> (<[OUT := Dir]> project_fs)) = (out, st, f2) ∧
    (exec (run_and_capture failing_runme "reset-workspace") (world_of (<[OUT := Dir]> project_fs))).2
      = set_fs (world_of (<[OUT := Dir]> project_fs)) f' ∧
    f' !! cell_file "reset-workspace" = Some (File out) ∧
    (∀ k, OUT `prefix_of` k → k ≠ cell_file "reset-workspace" → f' !! k = (<[OUT := Dir]> project_fs) !! k) ∧
    (∀ k, ¬ OUT `prefix_of` k → f' !! k = f2 !! k).
Proof.
  destruct (run_and_capture_captures failing_runme "reset-workspace"
              (world_of (<[OUT := Dir]> project_fs))) as [H0 [_ H1]].
  split; [exact H0|]. apply H1; [vm_compute; reflexivity|].
  intros f out st f2 E k _. unfold failing_runme in E. by inversion E.
Defined.

(** C7, witness: the environment recorded without the dependency
    installed. *)
Lemma capture_environment_records_witness :
  ∃ p, p = "unknown" ∧ ∃ d n m o,
    exec (capture_environment plain_json) (world_of (<[OUT := Dir]> project_fs)) =
      (0, set_fs (world_of (<[OUT := Dir]> project_fs))
            (<[ENVF := File (unlines ["date: " +:+ d; "node: " +:+ n; "npm: " +:+ m;
                                      "os: " +:+ o; "package: " +:+ p])]> (<[OUT := Dir]> project_fs))).
Proof.
  destruct (capture_environment_records plain_json (world_of (<[OUT := Dir]> project_fs)))
    as [d [n [m [o [p [E [_ Hp]]]]]]].
  - vm_compute. reflexivity.
  - exists p. split; [apply Hp; vm_compute; reflexivity|]. exists d, n, m, o. exact E.
Defined.

End PipelineFacts.

(* ------------------------------------------------------------------ *)
(** ** Facts about the reset-workspace cell *)
(* ------------------------------------------------------------------ *)

Module ResetFacts.
Import Pipeline PipelineFacts ResetWorkspace.

Lemma manifest_text_json : manifest_text = render_json 0 minimal_manifest +:+ NL.
Proof. vm_compute. reflexivity. Qed.

Lemma rm_operand_ok (name : string) (slash : bool) (f : gmap path entry) :
  (slash = true → ∀ c, f !! [name] ≠ Some (File c)) → rm_operand name slash f = ("", rm_rf [name] f).
Proof.
  intros H. unfold rm_operand. destruct (f !! [name]) as [[c|]|] eqn:E; try done.
  destruct slash; [|done]. by destruct (H eq_refl c).
Qed.

Lemma rm_rf_other (n m : string) (f : gmap path entry) :
  n ≠ m → rm_rf [n] f !! [m] = f !! [m].
Proof.
  intros Hne. rewrite rm_rf_lookup, decide_False; [done|].
  intros [r Hr]. simpl in Hr. congruence.
Qed.

(** C6.  When [src] and [docs-generated] are not regular files and
    [package.json] is not a directory, the reset-workspace cell succeeds,
    removes [src/], [docs-generated/], [tsconfig.json] and
    [delivery-process.config.ts] with everything below them, writes
    [package.json] anew with the here-document, and changes nothing else.
    The manifest is the JSON object with the members name, version, type,
    private, dependencies and devDependencies: no scripts member. *)
Theorem reset_workspace_effect (f : gmap path entry) :
  (∀ c, f !! ["src"] ≠ Some (File c)) → (∀ c, f !! ["docs-generated"] ≠ Some (File c)) →
  is_dir f ["package.json"] = false →
  ∃ out f', reset_workspace f = (out, 0, f') ∧
    (∀ n r, n ∈ reset_paths → f' !! (n :: r) = None) ∧
    f' !! ["package.json"] = Some (File (render_json 0 minimal_manifest +:+ NL)) ∧
    json_keys minimal_manifest =
      ["name"; "version"; "type"; "private"; "dependencies"; "devDependencies"] ∧
    ("scripts" ∉ json_keys minimal_manifest) ∧
    (∀ k, k ≠ ["package.json"] → (∀ n, n ∈ reset_paths → ¬ [n] `prefix_of` k) → f' !! k = f !! k).
Proof.
  intros Hs Hd Hp.
  set (f1 := rm_rf ["src"] f). set (f2 := rm_rf ["docs-generated"] f1).
  set (f3 := rm_rf ["tsconfig.json"] f2). set (f4 := rm_rf ["delivery-process.config.ts"] f3).
  assert (Hd1 : ∀ c, f1 !! ["docs-generated"] ≠ Some (File c)).
  { intros c. unfold f1. rewrite rm_rf_other by discriminate. apply Hd. }
  assert (Hp4 : f4 !! ["package.json"] = f !! ["package.json"]).
  { unfold f4, f3, f2, f1. rewrite !rm_rf_other by discriminate. done. }
  assert (H4a : ∀ k n, n ∈ reset_paths → [n] `prefix_of` k → f4 !! k = None).
  { intros k n Hn Hk. unfold f4, f3, f2, f1. rewrite !rm_rf_lookup.
    repeat case_decide; try done. revert Hn. unfold reset_paths.
    rewrite !elem_of_cons, elem_of_nil. intros [->|[->|[->|[->|[]]]]]; contradiction. }
  assert (H4b : ∀ k, (∀ n, n ∈ reset_paths → ¬ [n] `prefix_of` k) → f4 !! k = f !! k).
  { intros k Hn. unfold f4, f3, f2, f1. rewrite !rm_rf_lookup.
    repeat case_decide; try done; exfalso; (eapply Hn; [|eassumption]); unfold reset_paths; set_solver. }
  exists ("" +:+ "" +:+ "" +:+ "" +:+ "" +:+ "Workspace reset. Ready for tutorial." +:+ NL),
    (<[["package.json"] := File manifest_text]> f4).
  split; [|split; [|split; [|split; [|split]]]].
  - unfold reset_workspace. rewrite (rm_operand_ok "src" true f) by (intros _; apply Hs). fold f1.
    rewrite (rm_operand_ok "docs-generated" true f1) by (intros _; apply Hd1). fold f2.
    rewrite (rm_operand_ok "tsconfig.json" false f2) by discriminate. fold f3.
    rewrite (rm_operand_ok "delivery-process.config.ts" false f3) by discriminate. fold f4.
    assert (Hp' : is_dir f4 ["package.json"] = false) by (unfold is_dir; rewrite Hp4; exact Hp).
    rewrite Hp'. reflexivity.
  - intros n r Hn. rewrite lookup_insert_ne.
    + apply (H4a _ n Hn). by exists r.
    + intros Heq. injection Heq as <- <-. unfold reset_paths in Hn. set_solver.
  - rewrite lookup_insert_eq. by rewrite manifest_text_json.
  - reflexivity.
  - simpl. set_solver.
  - intros k Hk Hn. rewrite lookup_insert_ne by congruence. by apply H4b.
Qed.

(** C6, witness: the reset of a project with sources and an installed
    dependency. *)
Lemma reset_workspace_effect_witness :
  ∃ out f', reset_workspace Samples.tree_fs = (out, 0, f') ∧
    f' !! ["src"; "services"; "user-service.ts"] = None ∧
    f' !! ["package.json"] = Some (File manifest_text).
Proof.
  destruct (reset_workspace_effect Samples.tree_fs) as [out [f' [E [Hr [Hm _]]]]].
  - intros c. vm_compute. discriminate.
  - intros c. vm_compute. discriminate.
  - vm_compute. reflexivity.
  - exists out, f'. split; [exact E|]. split.
    + apply Hr. unfold reset_paths. left.
    + rewrite Hm. by rewrite manifest_text_json.
Defined.

End ResetFacts.

(* ------------------------------------------------------------------ *)
(** ** Facts about [EventStore] *)
(* ------------------------------------------------------------------ *)

Module EventStoreFacts.
Import EventStoreModel.

Lemma wfb_wf (h : heap) : wfb h = true → wf h.
Proof.
  unfold wfb. intros H. apply andb_true_iff in H as [H1 H2].
  rewrite forallb_forall in H1, H2. split.
  - intros a l Hl. apply elem_of_map_to_list, list_elem_of_In in Hl.
    specialize (H1 _ Hl). simpl in H1. apply andb_true_iff in H1 as [Ha Hf].
    apply bool_decide_eq_true in Ha. split; [done|].
    apply Forall_forall. intros o Ho. rewrite forallb_forall in Hf.
    apply list_elem_of_In in Ho. specialize (Hf _ Ho). by apply bool_decide_eq_true in Hf.
  - intros o e Ho. apply elem_of_map_to_list, list_elem_of_In in Ho.
    specialize (H2 _ Ho). by apply bool_decide_eq_true in H2.
Qed.

Lemma deref_ext (h h' : heap) (l : list N) :
  (∀ o, o ∈ l → objs h' !! o = objs h !! o) → deref h' l = deref h l.
Proof.
  induction l as [|o l IH]; intros H; [done|]. simpl.
  rewrite H by (left). rewrite IH; [done|]. intros x Hx. apply H. by right.
Qed.

Lemma deref_app (h : heap) (l1 l2 : list N) (es1 es2 : list DomainEvent) :
  deref h l1 = Some es1 → deref h l2 = Some es2 → deref h (l1 ++ l2) = Some (es1 ++ es2).
Proof.
  induction l1 as [|o l1 IH] in es1 |- *; simpl; intros H1 H2.
  - by injection H1 as <-.
  - destruct (objs h !! o) as [e|]; simpl in *; [|discriminate].
    destruct (deref h l1) as [es|]; simpl in *; [|discriminate].
    injection H1 as <-. by rewrite (IH es eq_refl H2).
Qed.

Lemma all_events_spec (s : EventStore) (h : heap) (l : list N) :
  arrs h !! events s = Some l → all_events s h = deref h l.
Proof.
  intros Hl. unfold all_events, getAll. rewrite Hl. simpl.
  unfold contents. simpl. rewrite lookup_insert_eq. simpl. by apply deref_ext.
Qed.

Lemma events_of_type_spec (s : EventStore) (ty : string) (h : heap) (l : list N) :
  arrs h !! events s = Some l → events_of_type s ty h = deref h (List.filter (type_is h ty) l).
Proof.
  intros Hl. unfold events_of_type, getByType. rewrite Hl. simpl.
  unfold contents. simpl. rewrite lookup_insert_eq. simpl. by apply deref_ext.
Qed.

Lemma type_is_objs (h h' : heap) (ty : string) :
  objs h' = objs h → type_is h' ty = type_is h ty.
Proof. intros H. unfold type_is. by rewrite H. Qed.

(** The queries read only the store's array and the objects. *)
Lemma queries_frame (s : EventStore) (h h' : heap) (ty : string) :
  arrs h' !! events s = arrs h !! events s → objs h' = objs h →
  all_events s h' = all_events s h ∧ events_of_type s ty h' = events_of_type s ty h.
Proof.
  intros Ha Ho. destruct (arrs h !! events s) as [l|] eqn:E.
  - rewrite !(all_events_spec s _ l), !(events_of_type_spec s ty _ l) by done.
    rewrite (type_is_objs h h' ty Ho). split; apply deref_ext; intros o _; by rewrite Ho.
  - unfold all_events, events_of_type, getAll, getByType. by rewrite Ha, E.
Qed.

Lemma append_ok (s : EventStore) (ty : string) (p : value) (now : Z) (h : heap)
    (os : list N) (pre : list DomainEvent) :
  wf h → arrs h !! events s = Some os → deref h os = Some pre →
  ∃ h', append s ty p now h = Some h' ∧ wf h' ∧ arrs h' !! events s = Some (os ++ [next h]) ∧
        deref h' (os ++ [next h]) = Some (pre ++ [MkDomainEvent ty p now]).
Proof.
  intros [Wa Wo] Hos Hd. unfold append, alloc_obj. cbn [arrs]. rewrite Hos. simpl.
  set (o := next h). set (e := MkDomainEvent ty p now).
  set (h' := set_arr (events s) (os ++ [o]) (Heap (arrs h) (<[o:=e]> (objs h)) (o + 1)%N)).
  assert (Hfresh : ∀ x, is_Some (objs h !! x) → x ≠ o).
  { intros x [ex Hx] ->. apply Wo in Hx. unfold o in Hx. lia. }
  assert (Hos' : Forall (λ x, is_Some (objs h !! x)) os) by (apply (Wa _ _ Hos)).
  exists h'. split; [done|]. split; [|split].
  - split.
    + intros a l Hl. unfold h', set_arr in *. cbn [arrs objs next] in *.
      destruct (decide (a = events s)) as [->|Hne].
      * rewrite lookup_insert_eq in Hl. injection Hl as <-. split.
        { destruct (Wa _ _ Hos) as [Hlt _]. unfold o. lia. }
        apply Forall_app. split.
        { eapply Forall_impl; [exact Hos'|]. intros x Hx. rewrite lookup_insert_is_Some'. by right. }
        constructor; [|done]. rewrite lookup_insert_is_Some'. by left.
      * rewrite lookup_insert_ne in Hl by congruence. destruct (Wa _ _ Hl) as [Hlt Hf]. split.
        { unfold o. lia. }
        eapply Forall_impl; [exact Hf|]. intros x Hx. rewrite lookup_insert_is_Some'. by right.
    + intros x ex Hx. unfold h', set_arr in *. cbn [objs next] in *.
      destruct (decide (x = o)) as [->|Hne]; [lia|].
      rewrite lookup_insert_ne in Hx by congruence. apply Wo in Hx. unfold o. lia.
  - unfold h', set_arr. cbn [arrs]. by rewrite lookup_insert_eq.
  - apply deref_app.
    + rewrite <- Hd. apply deref_ext. intros x Hx. unfold h', set_arr. cbn [objs].
      rewrite lookup_insert_ne; [done|]. apply not_eq_sym, Hfresh.
      rewrite Forall_forall in Hos'. by apply Hos'.
    + unfold h', set_arr. simpl. by rewrite lookup_insert_eq.
Qed.

Lemma append_all_ok (s : EventStore) (evs : list (string * value * Z)) :
  ∀ h os pre, wf h → arrs h !! events s = Some os → deref h os = Some pre →
  ∃ h' os', append_all s evs h = Some h' ∧ wf h' ∧ arrs h' !! events s = Some os' ∧
            deref h' os' = Some (pre ++ map (λ '(t, p, n), MkDomainEvent t p n) evs).
Proof.
  induction evs as [|[[t p] n] evs IH]; intros h os pre Hw Hos Hd.
  - exists h, os. by rewrite app_nil_r.
  - destruct (append_ok s t p n h os pre Hw Hos Hd) as [h1 [E [Hw1 [Hos1 Hd1]]]].
    destruct (IH h1 _ _ Hw1 Hos1 Hd1) as [h2 [os2 [E2 [Hw2 [Hos2 Hd2]]]]].
    exists h2, os2. simpl. rewrite E. simpl. rewrite <- app_assoc in Hd2. done.
Qed.

Lemma new_EventStore_ok (h0 : heap) :
  wf h0 → wf (new_EventStore h0).2 ∧ arrs (new_EventStore h0).2 !! events (new_EventStore h0).1 = Some [].
Proof.
  intros [Wa Wo]. simpl. split; [split|].
  - intros a l Hl. simpl in Hl. destruct (decide (a = next h0)) as [->|Hne].
    + rewrite lookup_insert_eq in Hl. injection Hl as <-. split; [simpl; lia|done].
    + rewrite lookup_insert_ne in Hl by congruence. destruct (Wa _ _ Hl). simpl. split; [lia|done].
  - intros o e Ho. simpl in *. apply Wo in Ho. lia.
  - by rewrite lookup_insert_eq.
Qed.

Lemma getAll_frame (s : EventStore) (h : heap) (l : list N) :
  wf h → arrs h !! events s = Some l →
  ∃ a h', getAll s h = Some (a, h') ∧ arrs h !! a = None ∧ a ≠ events s ∧
    arrs h' !! a = Some l ∧ (∀ b, b ≠ a → arrs h' !! b = arrs h !! b) ∧ objs h' = objs h.
Proof.
  intros [Wa Wo] Hl. unfold getAll. rewrite Hl. simpl.
  exists (next h), (alloc_arr l h).2. split; [done|].
  assert (Hn : arrs h !! next h = None).
  { destruct (arrs h !! next h) eqn:E; [|done]. apply Wa in E as [E _]. lia. }
  split; [done|]. split; [intros Heq; rewrite Heq, Hl in Hn; discriminate|].
  split; [simpl; by rewrite lookup_insert_eq|]. split; [|done].
  intros b Hb. simpl. by rewrite lookup_insert_ne by congruence.
Qed.

Lemma getByType_frame (s : EventStore) (ty : string) (h : heap) (l : list N) :
  wf h → arrs h !! events s = Some l →
  ∃ a h', getByType s ty h = Some (a, h') ∧ arrs h !! a = None ∧ a ≠ events s ∧
    (∀ b, b ≠ a → arrs h' !! b = arrs h !! b) ∧ objs h' = objs h.
Proof.
  intros [Wa Wo] Hl. unfold getByType. rewrite Hl. simpl.
  exists (next h), (alloc_arr (List.filter (type_is h ty) l) h).2. split; [done|].
  assert (Hn : arrs h !! next h = None).
  { destruct (arrs h !! next h) eqn:E; [|done]. apply Wa in E as [E _]. lia. }
  split; [done|]. split; [intros Heq; rewrite Heq, Hl in Hn; discriminate|]. split; [|done].
  intros b Hb. simpl. by rewrite lookup_insert_ne by congruence.
Qed.

(** C9.  From a well-formed heap, a new store that receives [append]
    calls returns through [getAll] exactly the appended events, in the
    order of the calls.  On any store of a well-formed heap, [getAll]
    returns a new array (an address not in use before, not the store's)
    holding the store's events in their order, and [getByType] a new
    array too; neither changes any other array or any event object.
    Whatever a caller then does to the returned array, both queries
    still answer what they answered before. *)
Theorem event_store_queries (h0 : heap) (evs : list (string * value * Z))
    (s : EventStore) (h : heap) (ty : string) :
  wfb h0 = true → wfb h = true → is_Some (arrs h !! events s) →
  (∃ h2, append_all (new_EventStore h0).1 evs (new_EventStore h0).2 = Some h2 ∧
     all_events (new_EventStore h0).1 h2 = Some (map (λ '(t, p, n), MkDomainEvent t p n) evs)) ∧
  (∃ a h', getAll s h = Some (a, h') ∧ arrs h !! a = None ∧ a ≠ events s ∧
     contents h' a = contents h (events s) ∧
     (∀ b, b ≠ a → arrs h' !! b = arrs h !! b) ∧ objs h' = objs h ∧
     ∀ l', all_events s (set_arr a l' h') = all_events s h ∧
           events_of_type s ty (set_arr a l' h') = events_of_type s ty h) ∧
  (∃ a h', getByType s ty h = Some (a, h') ∧ arrs h !! a = None ∧ a ≠ events s ∧
     (∀ b, b ≠ a → arrs h' !! b = arrs h !! b) ∧ objs h' = objs h ∧
     ∀ l', all_events s (set_arr a l' h') = all_events s h ∧
           events_of_type s ty (set_arr a l' h') = events_of_type s ty h).
Proof.
  intros W0 W [l Hl]. apply wfb_wf in W0, W. split; [|split].
  - destruct (new_EventStore_ok h0 W0) as [W1 H1].
    destruct (append_all_ok _ evs _ [] [] W1 H1 eq_refl) as [h2 [os [E [_ [Hos Hd]]]]].
    exists h2. split; [done|]. rewrite (all_events_spec _ _ os Hos). exact Hd.
  - destruct (getAll_frame s h l W Hl) as [a [h' [E [Hn [Hne [Ha [Hb Ho]]]]]]].
    exists a, h'. do 3 (split; [done|]). split; [|split; [done|split; [done|]]].
    + unfold contents. rewrite Ha, Hl. simpl. apply deref_ext. intros o _. by rewrite Ho.
    + intros l'. apply queries_frame; [|done].
      unfold set_arr. cbn [arrs]. rewrite lookup_insert_ne by congruence. by apply Hb.
  - destruct (getByType_frame s ty h l W Hl) as [a [h' [E [Hn [Hne [Hb Ho]]]]]].
    exists a, h'. do 5 (split; [done|]).
    intros l'. apply queries_frame; [|done].
    unfold set_arr. cbn [arrs]. rewrite lookup_insert_ne by congruence. by apply Hb.
Qed.

(** C9, witness: a store holding one event, and two events appended to a
    new store. *)
Lemma event_store_queries_witness :
  ∃ h2, append_all (new_EventStore empty_heap).1
          [("UserRegistered", VStr "u-1", 100); ("UserDeactivated", VStr "u-1", 200)]
          (new_EventStore empty_heap).2 = Some h2 ∧
        all_events (new_EventStore empty_heap).1 h2 =
          Some [MkDomainEvent "UserRegistered" (VStr "u-1") 100;
                MkDomainEvent "UserDeactivated" (VStr "u-1") 200].
Proof.
  destruct (event_store_queries empty_heap
              [("UserRegistered", VStr "u-1", 100); ("UserDeactivated", VStr "u-1", 200)]
              (MkEventStore 0)
              (Heap {[0%N := [1%N]]} {[1%N := MkDomainEvent "UserRegistered" (VStr "u-1") 100]} 2)
              "UserRegistered") as [H _].
  - vm_compute. reflexivity.
  - vm_compute. reflexivity.
  - exists [1%N]. reflexivity.
  - exact H.
Defined.

End EventStoreFacts.

(* ------------------------------------------------------------------ *)
(** ** Facts about [UserService] *)
(* ------------------------------------------------------------------ *)

Module UserServiceFacts.
Import UserServiceModel.

Lemma wfb_spec (s : UserService) (h : heap) :
  wfb s h = true →
  (∀ k o, users s !! k = Some o → is_Some (objs h !! o)) ∧
  (∀ k1 k2 o, users s !! k1 = Some o → users s !! k2 = Some o → k1 = k2).
Proof.
  unfold wfb. intros H. rewrite forallb_forall in H. split.
  - intros k o Hk. apply elem_of_map_to_list, list_elem_of_In in Hk.
    specialize (H _ Hk). apply andb_true_iff in H as [H _]. by apply bool_decide_eq_true in H.
  - intros k1 k2 o H1 H2. apply elem_of_map_to_list, list_elem_of_In in H1, H2.
    specialize (H _ H1). apply andb_true_iff in H as [_ H]. rewrite forallb_forall in H.
    specialize (H _ H2). apply bool_decide_eq_true in H. simpl in H. symmetry. by apply H.
Qed.

(** C10.  Let the map of a service refer to allocated records, no two
    keys sharing one.  [deactivate key] never changes the map (the
    service is not an output).  When [key] is absent it returns [false]
    and leaves the heap as it is.  When [key] is present it returns
    [true]; the record seen through [key] keeps its id and email and is
    no longer active, the records seen through every other key are
    unchanged, and no other object of the heap changes. *)
Theorem deactivate_spec (s : UserService) (h : heap) (key : string) :
  wfb s h = true →
  match users s !! key with
  | None => deactivate key s h = Some (false, h)
  | Some o =>
      ∃ r h', deactivate key s h = Some (true, h') ∧ view s h key = Some r ∧
        view s h' key = Some (MkUserRecord (id r) (email r) false) ∧
        (∀ k, k ≠ key → view s h' k = view s h k) ∧
        (∀ o', o' ≠ o → objs h' !! o' = objs h !! o')
  end.
Proof.
  intros W. destruct (wfb_spec s h W) as [Wa Wi].
  destruct (users s !! key) as [o|] eqn:E.
  - destruct (Wa _ _ E) as [r Hr].
    exists r, (Heap (<[o := MkUserRecord (id r) (email r) false]> (objs h)) (next h)).
    split; [|split; [|split; [|split]]].
    + unfold deactivate. by rewrite E, Hr.
    + unfold view. by rewrite E.
    + unfold view. rewrite E. simpl. by rewrite lookup_insert_eq.
    + intros k Hk. unfold view. destruct (users s !! k) as [o'|] eqn:E'; simpl; [|done].
      rewrite lookup_insert_ne; [done|]. intros ->. apply Hk. by apply (Wi _ _ _ E' E).
    + intros o' Ho'. simpl. by rewrite lookup_insert_ne by congruence.
  - unfold deactivate. by rewrite E.
Qed.

(** C10, witness: deactivating the first of two registered users, and a
    missing one. *)
Lemma deactivate_spec_witness :
  (∃ h', deactivate "id-1" two_users.1 two_users.2 = Some (true, h') ∧
         view two_users.1 h' "id-2" = view two_users.1 two_users.2 "id-2") ∧
  deactivate "id-9" two_users.1 two_users.2 = Some (false, two_users.2).
Proof.
  pose proof (deactivate_spec two_users.1 two_users.2 "id-1") as H1.
  pose proof (deactivate_spec two_users.1 two_users.2 "id-9") as H2.
  assert (W : wfb two_users.1 two_users.2 = true) by (vm_compute; reflexivity).
  assert (E1 : users two_users.1 !! "id-1" = Some 0%N) by (vm_compute; reflexivity).
  assert (E2 : users two_users.1 !! "id-9" = None) by (vm_compute; reflexivity).
  specialize (H1 W). specialize (H2 W). rewrite E1 in H1. rewrite E2 in H2. split; [|exact H2].
  destruct H1 as [r [h' [D [_ [_ [Hk _]]]]]]. exists h'. split; [exact D|]. apply Hk. discriminate.
Defined.

End UserServiceFacts.

(* ------------------------------------------------------------------ *)
(** ** Further properties: file-system commands, the prelude, the run,
    the tree listing, the reset cell and the sample classes *)
(* ------------------------------------------------------------------ *)

Module FsMore.
Import Pipeline Samples PipelineFacts.

Lemma prefix_cons_cases (x : string) (r k : path) :
  k `prefix_of` x :: r → k = [] ∨ ∃ k', k = x :: k' ∧ k' `prefix_of` r.
Proof.
  destruct k as [|y k']; [by left|]. intros H. right. exists k'.
  split; [by rewrite (prefix_cons_inv_1 _ _ _ _ H)|]. exact (prefix_cons_inv_2 _ _ _ _ H).
Qed.

Lemma mkdir_p_go_spec (rest base : path) (f : gmap path entry) :
  (mkdir_p_go base rest f = None ∧
     ∃ k c, k ≠ [] ∧ k `prefix_of` rest ∧ f !! (base ++ k) = Some (File c)) ∨
  (∃ f', mkdir_p_go base rest f = Some f' ∧
     (∀ k, k ≠ [] → k `prefix_of` rest →
        (f !! (base ++ k) = None ∨ f !! (base ++ k) = Some Dir) ∧ f' !! (base ++ k) = Some Dir) ∧
     (∀ x, (∀ k, k ≠ [] → k `prefix_of` rest → x ≠ base ++ k) → f' !! x = f !! x)).
Proof.
  induction rest as [|y r IH] in base, f |- *.
  - right. exists f. split; [done|]. split; [|done].
    intros k Hk Hp. by apply prefix_nil_inv in Hp.
  - cbn [mkdir_p_go]. set (q := base ++ [y]).
    assert (Hq : ∀ k', base ++ y :: k' = q ++ k') by (intros; unfold q; by rewrite <- app_assoc).
    destruct (f !! q) as [[c|]|] eqn:Eq.
    + left. split; [done|]. exists [y], c. split; [done|]. split; [apply prefix_cons, prefix_nil|]. exact Eq.
    + destruct (IH q (<[q:=Dir]> f)) as [[E [k [c [Hk [Hp Hf]]]]]|[f' [E [Hd Hfr]]]].
      * left. split; [done|]. exists (y :: k), c. split; [done|]. split; [by apply prefix_cons|].
        rewrite Hq. rewrite lookup_insert_ne in Hf; [done|].
        intros Heq. apply (f_equal length) in Heq. rewrite length_app in Heq. destruct k; [done|]. simpl in Heq. lia.
      * right. exists f'. split; [done|]. split.
        { intros k Hk Hp. destruct (prefix_cons_cases _ _ _ Hp) as [->|[k' [-> Hp']]]; [done|].
          rewrite Hq. destruct (decide (k' = [])) as [->|Hk'].
          - rewrite app_nil_r. split; [by right|]. rewrite Hfr; [by rewrite lookup_insert_eq|].
            intros k'' Hk'' _ Heq. apply (f_equal length) in Heq. rewrite length_app in Heq.
            destruct k''; [done|]. simpl in Heq. lia.
          - destruct (Hd k' Hk' Hp') as [Hold Hnew]. split; [|done].
            rewrite lookup_insert_ne in Hold; [done|].
            intros Heq. apply (f_equal length) in Heq. rewrite length_app in Heq. destruct k'; [done|]. simpl in Heq. lia. }
        { intros x Hx. rewrite Hfr.
          - rewrite lookup_insert_ne; [done|]. intros <-. apply (Hx [y]); [done|apply prefix_cons, prefix_nil|done].
          - intros k Hk Hp ->. apply (Hx (y :: k)); [done|by apply prefix_cons|]. by rewrite Hq. }
    + destruct (IH q (<[q:=Dir]> f)) as [[E [k [c [Hk [Hp Hf]]]]]|[f' [E [Hd Hfr]]]].
      * left. split; [done|]. exists (y :: k), c. split; [done|]. split; [by apply prefix_cons|].
        rewrite Hq. rewrite lookup_insert_ne in Hf; [done|].
        intros Heq. apply (f_equal length) in Heq. rewrite length_app in Heq. destruct k; [done|]. simpl in Heq. lia.
      * right. exists f'. split; [done|]. split.
        { intros k Hk Hp. destruct (prefix_cons_cases _ _ _ Hp) as [->|[k' [-> Hp']]]; [done|].
          rewrite Hq. destruct (decide (k' = [])) as [->|Hk'].
          - rewrite app_nil_r. split; [by left|]. rewrite Hfr; [by rewrite lookup_insert_eq|].
            intros k'' Hk'' _ Heq. apply (f_equal length) in Heq. rewrite length_app in Heq.
            destruct k''; [done|]. simpl in Heq. lia.
          - destruct (Hd k' Hk' Hp') as [Hold Hnew]. split; [|done].
            rewrite lookup_insert_ne in Hold; [done|].
            intros Heq. apply (f_equal length) in Heq. rewrite length_app in Heq. destruct k'; [done|]. simpl in Heq. lia. }
        { intros x Hx. rewrite Hfr.
          - rewrite lookup_insert_ne; [done|]. intros <-. apply (Hx [y]); [done|apply prefix_cons, prefix_nil|done].
          - intros k Hk Hp ->. apply (Hx (y :: k)); [done|by apply prefix_cons|]. by rewrite Hq. }
Qed.

Lemma mkdir_p_cases (p : path) (f : gmap path entry) :
  (mkdir_p p f = (1, f) ∧ ∃ k c, k ≠ [] ∧ k `prefix_of` p ∧ f !! k = Some (File c)) ∨
  (∃ f', mkdir_p p f = (0, f') ∧
     (∀ k, k ≠ [] → k `prefix_of` p → (f !! k = None ∨ f !! k = Some Dir) ∧ f' !! k = Some Dir) ∧
     (∀ x, (∀ k, k ≠ [] → k `prefix_of` p → x ≠ k) → f' !! x = f !! x)).
Proof.
  unfold mkdir_p. destruct (mkdir_p_go_spec p [] f) as [[E H]|[f' [E [Hd Hfr]]]]; rewrite E.
  - by left.
  - right. exists f'. by split.
Qed.

(** [mkdir -p p] fails with status 1, changing nothing, exactly when
    some ancestor of [p] (or [p]) is a regular file.  Otherwise it
    succeeds: [p] and all its ancestors are directories afterwards (each
    was a directory or missing before), and no other path changes. *)
Theorem mkdir_p_spec (p : path) (f : gmap path entry) :
  (mkdir_p p f = (1, f) ∧ ∃ k c, k ≠ [] ∧ k `prefix_of` p ∧ f !! k = Some (File c)) ∨
  (∃ f', mkdir_p p f = (0, f') ∧
     (∀ k, k ≠ [] → k `prefix_of` p → (f !! k = None ∨ f !! k = Some Dir) ∧ f' !! k = Some Dir) ∧
     (∀ x, (∀ k, k ≠ [] → k `prefix_of` p → x ≠ k) → f' !! x = f !! x)).
Proof. apply mkdir_p_cases. Qed.

(** [mkdir -p p] a second time succeeds and changes nothing. *)
Theorem mkdir_p_again (p : path) (f f' : gmap path entry) :
  mkdir_p p f = (0, f') → mkdir_p p f' = (0, f').
Proof.
  intros E. destruct (mkdir_p_cases p f) as [[E1 _]|[f1 [E1 [Hd _]]]]; rewrite E1 in E; [discriminate|].
  injection E as <-.
  destruct (mkdir_p_cases p f1) as [[_ [k [c [Hk [Hp Hf]]]]]|[f2 [E2 [Hd2 Hfr2]]]].
  - destruct (Hd k Hk Hp) as [_ Hk']. congruence.
  - rewrite E2. f_equal. apply map_eq. intros x.
    destruct (decide (x ≠ [] ∧ x `prefix_of` p)) as [[Hk Hp]|Hn].
    + rewrite (proj2 (Hd2 x Hk Hp)). symmetry. exact (proj2 (Hd x Hk Hp)).
    + apply Hfr2. intros k Hk Hp ->. by apply Hn.
Qed.

Lemma copy_tree_list (src dst r : path) (f : gmap path entry) (l : list (path * entry)) :
  NoDup l.*1 →
  (∀ e, (src ++ r, e) ∈ l →
     foldr (fun kv acc =>
              if decide (src `prefix_of` kv.1)
              then <[dst ++ drop (length src) kv.1 := kv.2]> acc else acc) f l !! (dst ++ r) = Some e) ∧
  ((∀ e, (src ++ r, e) ∉ l) →
     foldr (fun kv acc =>
              if decide (src `prefix_of` kv.1)
              then <[dst ++ drop (length src) kv.1 := kv.2]> acc else acc) f l !! (dst ++ r) = f !! (dst ++ r)).
Proof.
  induction l as [|[k v] l IH]; intros Hnd.
  - split; [intros e He; by apply elem_of_nil in He|done].
  - apply NoDup_cons in Hnd as [Hk Hnd]. cbn [fmap list_fmap fst] in Hk.
    destruct (IH Hnd) as [IH1 IH2]. cbn [foldr fst snd].
    destruct (decide (k = src ++ r)) as [->|Hne].
    + rewrite decide_True by (by exists r). rewrite drop_app_length, lookup_insert_eq. split.
      * intros e He. apply elem_of_cons in He as [He|He]; [by injection He as ->|].
        exfalso. apply Hk. apply (list_elem_of_fmap_2 fst _ (src ++ r, e)). exact He.
      * intros Hn. exfalso. apply (Hn v). by left.
    + assert (Hl : ∀ e, (src ++ r, e) ∈ (k, v) :: l → (src ++ r, e) ∈ l).
      { intros e He. apply elem_of_cons in He as [He|He]; [|done]. injection He as <-. done. }
      case_decide as Hp.
      * destruct Hp as [r' ->]. rewrite drop_app_length.
        rewrite lookup_insert_ne by (intros Heq; apply app_inv_head in Heq; congruence). split.
        { intros e He. apply IH1. by apply Hl. }
        { intros Hn. apply IH2. intros e He. apply (Hn e). by right. }
      * split.
        { intros e He. apply IH1. by apply Hl. }
        { intros Hn. apply IH2. intros e He. apply (Hn e). by right. }
Qed.

Lemma copy_tree_lookup (src dst r : path) (f : gmap path entry) :
  copy_tree src dst f !! (dst ++ r) =
    match f !! (src ++ r) with Some e => Some e | None => f !! (dst ++ r) end.
Proof.
  unfold copy_tree. destruct (copy_tree_list src dst r f (map_to_list f) (NoDup_fst_map_to_list f)) as [H1 H2].
  destruct (f !! (src ++ r)) as [e|] eqn:E.
  - apply H1. by apply elem_of_map_to_list.
  - apply H2. intros e He. apply elem_of_map_to_list in He. congruence.
Qed.

(** [cp -r name/ dst/] fails with status 1, changing nothing, when
    [name] is not a directory.  Otherwise, when [dst] is a directory or
    is missing in an existing directory, when the copy's directory is not
    inside [name], and when no entry below [name] meets an entry of the
    other type (regular file or directory) at its place in the copy, it
    succeeds: the copy goes to [dst/name] when [dst] is a directory and to
    [dst] when not, every entry below [name] is copied to the same
    relative place there, overwriting what was there; other entries there
    stay, and nothing outside the copy's directory changes. *)
Theorem cp_r_spec (name : string) (dst : path) (f : gmap path entry) :
  (f !! [name] ≠ Some Dir → cp_r name dst f = (1, f)) ∧
  (f !! [name] = Some Dir →
   let d := if is_dir f dst then dst ++ [name] else dst in
   (is_dir f dst = true ∨
    (f !! dst = None ∧ ∃ p x, dst = p ++ [x] ∧ (p = [] ∨ is_dir f p = true))) →
   ¬ [name] `prefix_of` d →
   (∀ r e e', f !! (name :: r) = Some e → f !! (d ++ r) = Some e' →
      entry_is_file e = entry_is_file e') →
   ∃ f', cp_r name dst f = (0, f') ∧
     (∀ r, f' !! (d ++ r) = match f !! (name :: r) with Some e => Some e | None => f !! (d ++ r) end) ∧
     (∀ k, ¬ d `prefix_of` k → f' !! k = f !! k)).
Proof.
  unfold cp_r. split.
  - intros Hn. by destruct (f !! [name]) as [[c|]|].
  - intros E. cbv zeta. intros _ _ _. rewrite E. eexists. split; [reflexivity|]. split.
    + intros r. apply (copy_tree_lookup [name]).
    + intros k Hk. by apply copy_tree_frame.
Qed.

Lemma cp_r_spec_witness :
  ∃ f', cp_r "src" ["backup"] tree_fs = (0, f') ∧
    (∀ r, f' !! (["backup"] ++ r)
          = match tree_fs !! ("src" :: r) with Some e => Some e | None => tree_fs !! (["backup"] ++ r) end) ∧
    (∀ k, ¬ ["backup"] `prefix_of` k → f' !! k = tree_fs !! k).
Proof.
  refine (proj2 (cp_r_spec "src" ["backup"] tree_fs) _ _ _ _).
  - vm_compute. reflexivity.
  - right. split; [vm_compute; reflexivity|]. exists [], "backup". split; [reflexivity|by left].
  - change (¬ ["src"] `prefix_of` ["backup"]). intros [r Hr]. discriminate.
  - change (∀ r e e', tree_fs !! ("src" :: r) = Some e → tree_fs !! (["backup"] ++ r) = Some e' →
              entry_is_file e = entry_is_file e').
    intros r e e' _ H. rewrite (fresh_under ["backup"] tree_fs) in H; [discriminate| |by exists r].
    vm_compute. reflexivity.
Defined.

(** The prelude [rm -rf "$OUT"; mkdir -p "$OUT/snapshots"], when
    [scripts] is not a regular file, completes and leaves under
    [scripts/outputs/] only the empty [snapshots/] directory, whatever an
    earlier run left there; outside [scripts/outputs/] only [scripts/]
    itself may change, becoming a directory. *)
Theorem prelude_spec (w : world) :
  is_file (w_fs w) SCRIPT_DIR = false →
  ∃ f', run_steps prelude w = Done (set_fs w f') ∧
    f' !! SCRIPT_DIR = Some Dir ∧ f' !! OUT = Some Dir ∧ f' !! SNAPS = Some Dir ∧
    (∀ k, OUT `prefix_of` k → k ≠ OUT → k ≠ SNAPS → f' !! k = None) ∧
    (∀ k, k ≠ SCRIPT_DIR → ¬ OUT `prefix_of` k → f' !! k = w_fs w !! k).
Proof.
  intros Hsd.
  set (f1 := rm_rf OUT (w_fs w)).
  assert (Hf1 : ∀ k, f1 !! k = if decide (OUT `prefix_of` k) then None else w_fs w !! k)
    by (intros k; apply rm_rf_lookup).
  assert (Hout : ∀ k, OUT `prefix_of` k → f1 !! k = None).
  { intros k Hk. rewrite Hf1. by rewrite decide_True. }
  assert (Hsc : f1 !! SCRIPT_DIR = w_fs w !! SCRIPT_DIR).
  { rewrite Hf1. rewrite decide_False; [done|]. intros Hq. apply prefix_length in Hq. simpl in Hq. lia. }
  set (f2 := <[SNAPS := Dir]> (<[OUT := Dir]> (<[SCRIPT_DIR := Dir]> f1))).
  assert (Hmk : mkdir_p SNAPS f1 = (0, f2)).
  { unfold mkdir_p, SNAPS, OUT. cbn [mkdir_p_go app].
    unfold SCRIPT_DIR in Hsc. rewrite Hsc. unfold is_file, SCRIPT_DIR in Hsd.
    assert (Ho : <[["scripts"] := Dir]> f1 !! ["scripts"; "outputs"] = None).
    { rewrite lookup_insert_ne by discriminate. apply Hout. by exists []. }
    assert (Hn : <[["scripts"; "outputs"] := Dir]> (<[["scripts"] := Dir]> f1)
                   !! ["scripts"; "outputs"; "snapshots"] = None).
    { rewrite !lookup_insert_ne by discriminate. apply Hout. by exists ["snapshots"]. }
    destruct (w_fs w !! ["scripts"]) as [[c|]|]; [discriminate| |];
      rewrite Ho, Hn; reflexivity. }
  exists f2. split; [|split; [|split; [|split; [|split]]]].
  - unfold prelude. cbn [run_steps exec]. cbn [Z.eqb lift marks]. unfold lift.
    change (w_fs (add_log (set_fs w (rm_rf OUT (w_fs w))) [])) with f1. rewrite Hmk.
    cbn [Z.eqb]. unfold add_log, set_fs. simpl. by rewrite !app_nil_r.
  - unfold f2. rewrite !lookup_insert_ne by discriminate. by rewrite lookup_insert_eq.
  - unfold f2. rewrite lookup_insert_ne by discriminate. by rewrite lookup_insert_eq.
  - unfold f2. by rewrite lookup_insert_eq.
  - intros k Hk H1 H2. unfold f2. rewrite !lookup_insert_ne; [by apply Hout|..]; try congruence.
    intros <-. apply prefix_length in Hk. simpl in Hk. lia.
  - intros k H1 H2. unfold f2. rewrite !lookup_insert_ne; [|congruence|..].
    + rewrite Hf1. by rewrite decide_False.
    + intros <-. apply H2. by exists [].
    + intros <-. apply H2. by exists ["snapshots"].
Qed.

Lemma mkdir_p_again_witness :
  mkdir_p (snap_dir "00-setup") (mkdir_p (snap_dir "00-setup") project_fs).2
  = (0, (mkdir_p (snap_dir "00-setup") project_fs).2).
Proof.
  apply (mkdir_p_again (snap_dir "00-setup") project_fs).
  assert (H : (mkdir_p (snap_dir "00-setup") project_fs).1 = 0) by (vm_compute; reflexivity).
  destruct (mkdir_p (snap_dir "00-setup") project_fs) as [c g]. simpl in H. by subst.
Defined.

Lemma prelude_spec_witness :
  ∃ f', run_steps prelude (world_of tree_fs) = Done (set_fs (world_of tree_fs) f') ∧
    f' !! SCRIPT_DIR = Some Dir ∧ f' !! OUT = Some Dir ∧ f' !! SNAPS = Some Dir ∧
    (∀ k, OUT `prefix_of` k → k ≠ OUT → k ≠ SNAPS → f' !! k = None) ∧
    (∀ k, k ≠ SCRIPT_DIR → ¬ OUT `prefix_of` k → f' !! k = tree_fs !! k).
Proof. apply (prelude_spec (world_of tree_fs)). vm_compute. reflexivity. Defined.
End FsMore.

Module RunMore.
Import Pipeline Samples Invariants PipelineFacts.

(** Under the assumptions of a complete run (the cells leave [scripts/]
    alone and keep [package.json] a regular file; the project starts
    with a manifest and without a regular file named [scripts]), the run
    ends with [environment.txt] written and a directory for the snapshot
    of every Part, [00-setup] to [10-advanced]. *)
Theorem script_leaves_snapshots runme json_version (w : world) :
  (∀ c f out st f', runme c f = (out, st, f') → ∀ k, SCRIPT_DIR `prefix_of` k → f' !! k = f !! k) →
  (∀ c f out st f', runme c f = (out, st, f') →
     is_file f ["package.json"] = true → is_file f' ["package.json"] = true) →
  is_file (w_fs w) SCRIPT_DIR = false → is_file (w_fs w) ["package.json"] = true →
  ∃ w', run_steps (script runme json_version) w = Done w' ∧ is_file (w_fs w') ENVF = true ∧
    ∀ l, l ∈ ["00-setup"; "01-project-setup"; "02-configuration"; "03-first-annotation";
              "04-richness"; "05-relationships"; "06-doc-generation"; "07-gherkin";
              "08-stubs"; "09-full-generation"; "10-advanced"] →
      is_dir (w_fs w') (snap_dir l) = true.
Proof.
  intros H1 H2 Hsd Hp.
  destruct (script_run runme H1 H2 json_version w Hsd Hp) as [w' [E [_ [l [Hl [Hh _]]]]]].
  pose proof (script_run_log runme json_version w) as Ho. rewrite E, Hl in Ho.
  apply app_inv_head in Ho. subst l. rewrite Forall_forall in Hh.
  exists w'. split; [done|]. split.
  - apply (Hh EEnv). apply (bool_decide_unpack _). vm_compute. exact I.
  - intros l Hlab. apply (Hh (ESnap l)). revert Hlab. rewrite !elem_of_cons, elem_of_nil.
    intros Hlab. repeat destruct Hlab as [->|Hlab]; try done;
      apply (bool_decide_unpack _); vm_compute; exact I.
Qed.

Lemma script_leaves_snapshots_witness :
  ∃ w', run_steps (script quiet_runme plain_json) (world_of project_fs) = Done w' ∧
    is_file (w_fs w') ENVF = true ∧
    ∀ l, l ∈ ["00-setup"; "01-project-setup"; "02-configuration"; "03-first-annotation";
              "04-richness"; "05-relationships"; "06-doc-generation"; "07-gherkin";
              "08-stubs"; "09-full-generation"; "10-advanced"] →
      is_dir (w_fs w') (snap_dir l) = true.
Proof.
  apply (script_leaves_snapshots quiet_runme plain_json (world_of project_fs)).
  - intros c f out st f' H k _. unfold quiet_runme in H. by inversion H.
  - intros c f out st f' H Hp. unfold quiet_runme in H. by inversion H; subst.
  - vm_compute. reflexivity.
  - vm_compute. reflexivity.
Defined.

(** A command substitution [$(cmd)] inserts the output of [cmd] without
    its trailing newlines: the output is the inserted text followed by
    newlines only, and the inserted text does not end with a newline. *)
Theorem strip_nl_spec (s : string) :
  ∃ t, s = strip_nl s +:+ t ∧ (∀ c, In c (list_ascii_of_string t) → c = nl_char) ∧
    ∀ u, strip_nl s ≠ u +:+ NL.
Proof.
  induction s as [|c s [t [Ht [Hnl Hend]]]].
  - exists "". split; [done|]. split; [intros c []|]. intros u Hu.
    destruct u; discriminate.
  - cbn [strip_nl]. destruct (Ascii.eqb c nl_char && String.eqb (strip_nl s) "")%bool eqn:E.
    + apply andb_true_iff in E as [Ec Er]. apply Ascii.eqb_eq in Ec. apply String.eqb_eq in Er.
      exists (String c t). split; [rewrite Er in Ht; rewrite Ht at 1; done|]. split.
      * intros c' [<-|Hc']; [done|]. by apply Hnl.
      * intros u Hu. destruct u; discriminate.
    + exists t. split; [rewrite Ht at 1; done|]. split; [done|].
      intros u Hu. destruct u as [|c' u].
      * simpl in Hu. injection Hu as -> Hr. rewrite Hr in E. vm_compute in E. discriminate.
      * simpl in Hu. injection Hu as -> Hr. by apply (Hend u).
Qed.
End RunMore.



Module TreeMore.
Import Pipeline PipelineFacts.

#[local] Instance sort_le_transitive (xfrm : string -> string) :
  Transitive (λ a b, sort_le xfrm a b = true).
Proof. intros a b c. apply sort_le_trans. Qed.

#[local] Instance sort_le_antisymm (xfrm : string -> string) :
  AntiSymm (=) (λ a b, sort_le xfrm a b = true).
Proof. intros a b. apply sort_le_antisym. Qed.

Lemma lines_go_app (cur a b : string) :
  lines_go cur (a +:+ NL +:+ b) = lines_go cur (a +:+ NL) ++ lines_go "" b.
Proof.
  induction a as [|c a IH] in cur |- *.
  - rewrite !string_app_nil_l. unfold NL. rewrite string_app_cons, string_app_nil_l.
    cbn [lines_go]. rewrite Ascii.eqb_refl. reflexivity.
  - rewrite !string_app_cons. cbn [lines_go].
    destruct (Ascii.eqb c nl_char); [rewrite IH; reflexivity|apply IH].
Qed.

Lemma lines_unlines_concat (L : list string) :
  lines (unlines L) = concat (map (λ x, lines (x +:+ NL)) L).
Proof.
  induction L as [|x L IH]; [reflexivity|]. cbn [unlines map concat].
  unfold lines at 1. rewrite lines_go_app. rewrite <- IH. reflexivity.
Qed.

Lemma find_list_perm (f : gmap path entry) :
  find_list f ≡ₚ render <$> (fst <$> map_to_list (listed_files f)).
Proof.
  unfold find_list, listed_files. rewrite map_to_list_fmap, <- list_fmap_compose.
  change ((render ∘ fst) ∘ prod_map id (λ _ : entry, ())) with (λ kv : path * entry, render kv.1).
  rewrite map_filter_alt, map_to_list_to_map.
  2:{ apply NoDup_fmap_fst; [|apply NoDup_filter, NoDup_map_to_list].
      intros k e1 e2 H1 H2. apply list_elem_of_filter in H1 as [_ H1], H2 as [_ H2].
      apply elem_of_map_to_list in H1, H2. congruence. }
  induction (map_to_list f) as [|[k e] l IH]; [done|].
  cbn [fmap list_fmap]. rewrite !filter_cons. cbn [fst snd].
  destruct (entry_is_file e) eqn:Ee; simpl.
  - rewrite filter_cons. destruct (decide (listed (render k) = true)) as [Hl|Hl].
    + rewrite decide_True by done. simpl. by rewrite IH.
    + rewrite decide_False by tauto. exact IH.
  - rewrite decide_False by (intros [_ ?]; discriminate). exact IH.
Qed.

Lemma tree_listing_ext (xfrm : string -> string) (f f2 : gmap path entry) :
  (∀ k, listed (render k) = true → is_file f k = is_file f2 k) →
  tree_listing xfrm f = tree_listing xfrm f2.
Proof.
  intros H. unfold tree_listing, sort_lines, find_output.
  f_equal. apply (@Sorted_unique string (λ a b, sort_le xfrm a b = true) _ _); [apply isort_sorted..|].
  rewrite !isort_perm, !lines_unlines_concat.
  assert (Hb : ∀ L, concat (map (λ x, lines (x +:+ NL)) L) = L ≫= (λ x, lines (x +:+ NL)))
    by (intros L; induction L as [|x L IH]; [done|]; simpl; by rewrite IH).
  rewrite !Hb. apply bind_Permutation.
  rewrite !find_list_perm. unfold listed_files.
  assert (E : (λ _, ()) <$> filter (λ kv : path * entry, listed (render kv.1) = true ∧ entry_is_file kv.2 = true) f
            = (λ _, ()) <$> filter (λ kv : path * entry, listed (render kv.1) = true ∧ entry_is_file kv.2 = true) f2).
  { apply map_eq. intros k. rewrite !lookup_fmap, !map_lookup_filter.
    destruct (decide (listed (render k) = true)) as [Hl|Hl].
    - specialize (H k Hl). unfold is_file in H.
      destruct (f !! k) as [[c|]|], (f2 !! k) as [[c'|]|]; simpl; try done;
        repeat case_guard; simpl in *; naive_solver.
    - destruct (f !! k), (f2 !! k); simpl; try done;
        repeat case_guard; simpl in *; naive_solver. }
  by rewrite E.
Qed.


End TreeMore.



Module ResetMore.
Import Pipeline PipelineFacts ResetWorkspace ResetFacts.

Lemma rm_rf_clear (p : path) (g : gmap path entry) : vacant p g → rm_rf p g = g.
Proof.
  intros H. apply map_eq. intros k. rewrite rm_rf_lookup. case_decide; [|done]. symmetry. by apply H.
Qed.

Lemma rm_rf_clears (p : path) (g : gmap path entry) : vacant p (rm_rf p g).
Proof. intros k Hk. rewrite rm_rf_lookup. by rewrite decide_True. Qed.

Lemma rm_operand_cases (n : string) (slash : bool) (g : gmap path entry) :
  (rm_operand n slash g).2 = g ∨ ((rm_operand n slash g).1 = "" ∧ (rm_operand n slash g).2 = rm_rf [n] g).
Proof.
  unfold rm_operand. destruct (g !! [n]) as [[c|]|]; [destruct slash|..]; simpl; auto.
Qed.

Lemma rm_rf_agree (n m : string) (g0 g : gmap path entry) :
  m ≠ n → agree n g0 g → agree n g0 (rm_rf [m] g).
Proof.
  intros Hmn [H1 H2]. split.
  - rewrite rm_rf_other by done. exact H1.
  - intros Hc k Hk. rewrite rm_rf_lookup. case_decide; [done|]. by apply H2.
Qed.

Lemma rm_operand_agree (n m : string) (slash : bool) (g0 g : gmap path entry) :
  m ≠ n → agree n g0 g → agree n g0 (rm_operand m slash g).2.
Proof.
  intros Hmn H. destruct (rm_operand_cases m slash g) as [->|[_ ->]]; [done|]. by apply rm_rf_agree.
Qed.

Lemma insert_agree (n : string) (g0 g : gmap path entry) (e : entry) :
  n ≠ "package.json" → agree n g0 g → agree n g0 (<[["package.json"] := e]> g).
Proof.
  intros Hn [H1 H2]. split.
  - rewrite lookup_insert_ne by congruence. exact H1.
  - intros Hc k Hk. rewrite lookup_insert_ne; [by apply H2|].
    intros <-. destruct Hk as [r Hr]. simpl in Hr. congruence.
Qed.

Lemma rm_operand_stable (n : string) (slash : bool) (g h : gmap path entry) :
  agree n (rm_operand n slash g).2 h → rm_operand n slash h = ((rm_operand n slash g).1, h).
Proof.
  intros H.
  assert (Gen : (∀ c, slash = true → g !! [n] ≠ Some (File c)) → rm_operand n slash h = ((rm_operand n slash g).1, h)).
  { intros Hg. rewrite (rm_operand_ok n slash g) in H |- * by (intros Hs c; by apply Hg).
    destruct H as [_ H2]. cbn [fst snd] in *. pose proof (H2 (rm_rf_clears _ _)) as Hc.
    rewrite rm_operand_ok; [f_equal; by apply rm_rf_clear|].
    intros _ c Hh. rewrite (Hc [n]) in Hh; [discriminate|done]. }
  destruct (g !! [n]) as [[c|]|] eqn:E; [destruct slash| | ]; try (apply Gen; intros c' Hs; congruence).
  assert (Eg : rm_operand n true g = ("rm: cannot remove '" +:+ n +:+ "/': Not a directory" +:+ NL, g))
    by (unfold rm_operand; by rewrite E).
  rewrite Eg in H |- *. destruct H as [H1 _]. cbn [fst snd] in *. unfold rm_operand. by rewrite H1, E.
Qed.

(** Running the reset-workspace cell on the project it left behind
    prints the same output, exits with the same status and changes
    nothing. *)
Theorem reset_workspace_twice (f : gmap path entry) :
  reset_workspace (reset_workspace f).2 = reset_workspace f.
Proof.
  unfold reset_workspace at 2.
  destruct (rm_operand "src" true f) as [e1 f1] eqn:E1.
  destruct (rm_operand "docs-generated" true f1) as [e2 f2] eqn:E2.
  destruct (rm_operand "tsconfig.json" false f2) as [e3 f3] eqn:E3.
  destruct (rm_operand "delivery-process.config.ts" false f3) as [e4 f4] eqn:E4.
  set (f5 := if is_dir f4 ["package.json"] then f4 else <[["package.json"] := File manifest_text]> f4).
  set (e5 := if is_dir f4 ["package.json"] then "bash: package.json: Is a directory" +:+ NL else "").
  assert (H5 : (if is_dir f4 ["package.json"]
                then ("bash: package.json: Is a directory" +:+ NL, f4)
                else ("", <[["package.json"] := File manifest_text]> f4)) = (e5, f5))
    by (unfold e5, f5; by destruct (is_dir f4 ["package.json"])).
  rewrite H5. cbn [snd].
  assert (Hw : ∀ n g0, n ≠ "package.json" → agree n g0 f4 → agree n g0 f5).
  { intros n g0 Hn H. unfold f5. destruct (is_dir f4 ["package.json"]); [done|]. by apply insert_agree. }
  assert (R : ∀ n m slash g0 g e g', rm_operand m slash g = (e, g') → m ≠ n → agree n g0 g → agree n g0 g').
  { intros n m slash g0 g e g' E Hmn H. assert (g' = (rm_operand m slash g).2) as -> by (by rewrite E).
    by apply rm_operand_agree. }
  unfold reset_workspace.
  rewrite (rm_operand_stable "src" true f f5).
  2:{ rewrite E1. simpl. apply Hw; [done|]. eapply R; [exact E4|done|]. eapply R; [exact E3|done|].
      eapply R; [exact E2|done|]. done. }
  rewrite E1. cbn [fst].
  rewrite (rm_operand_stable "docs-generated" true f1 f5).
  2:{ rewrite E2. simpl. apply Hw; [done|]. eapply R; [exact E4|done|]. eapply R; [exact E3|done|]. done. }
  rewrite E2. cbn [fst].
  rewrite (rm_operand_stable "tsconfig.json" false f2 f5).
  2:{ rewrite E3. simpl. apply Hw; [done|]. eapply R; [exact E4|done|]. done. }
  rewrite E3. cbn [fst].
  rewrite (rm_operand_stable "delivery-process.config.ts" false f3 f5).
  2:{ rewrite E4. simpl. apply Hw; done. }
  rewrite E4. cbn [fst].
  unfold e5, f5. destruct (is_dir f4 ["package.json"]) eqn:D; [by rewrite D|].
  assert (D' : is_dir (<[["package.json"] := File manifest_text]> f4) ["package.json"] = false)
    by (unfold is_dir; by rewrite lookup_insert_eq).
  rewrite D'. by rewrite insert_insert_eq.
Qed.
End ResetMore.



Module UserServiceMore.
Import UserServiceModel UserServiceFacts.

Lemma heap_ok_spec (h : heap) :
  heap_ok h = true ↔ ∀ o r, objs h !! o = Some r → (o < next h)%N.
Proof.
  unfold heap_ok. rewrite forallb_forall. split.
  - intros H o r Ho. apply elem_of_map_to_list, list_elem_of_In in Ho.
    specialize (H _ Ho). by apply bool_decide_eq_true in H.
  - intros H [o r] Ho. apply list_elem_of_In, elem_of_map_to_list in Ho.
    apply bool_decide_eq_true. exact (H _ _ Ho).
Qed.

Lemma wfb_intro (s : UserService) (h : heap) :
  (∀ k o, users s !! k = Some o → is_Some (objs h !! o)) →
  (∀ k1 k2 o, users s !! k1 = Some o → users s !! k2 = Some o → k1 = k2) →
  wfb s h = true.
Proof.
  intros Ha Hi. unfold wfb. apply forallb_forall. intros [k o] Hk.
  apply list_elem_of_In, elem_of_map_to_list in Hk. apply andb_true_iff. split.
  - apply bool_decide_eq_true. exact (Ha _ _ Hk).
  - apply forallb_forall. intros [k' o'] Hk'. apply list_elem_of_In, elem_of_map_to_list in Hk'.
    apply bool_decide_eq_true. simpl. intros ->. exact (Hi _ _ _ Hk' Hk).
Qed.

(** [register] then [findById]: the new key refers to a new record with
    the given email, active; every other key sees what it saw before, and
    no record in the heap changes. *)
Theorem register_findById (mail uuid : string) (s : UserService) (h : heap) :
  wfb s h = true → heap_ok h = true →
  ∃ s' h', register mail uuid s h = (uuid, s', h') ∧
    findById uuid s' = Some (next h) ∧ objs h !! next h = None ∧
    view s' h' uuid = Some (MkUserRecord uuid mail true) ∧
    (∀ k, k ≠ uuid → findById k s' = findById k s ∧ view s' h' k = view s h k) ∧
    (∀ o r, objs h !! o = Some r → objs h' !! o = Some r).
Proof.
  intros W Hh. pose proof (proj1 (heap_ok_spec h) Hh) as Hlt. destruct (wfb_spec s h W) as [Wa _].
  assert (Hn : objs h !! next h = None).
  { destruct (objs h !! next h) as [r|] eqn:E; [|done]. apply Hlt in E. lia. }
  eexists _, _. split; [reflexivity|]. split; [|split; [done|split; [|split]]].
  - unfold findById. simpl. by rewrite lookup_insert_eq.
  - unfold view. simpl. rewrite lookup_insert_eq. simpl. by rewrite lookup_insert_eq.
  - intros k Hk. unfold findById, view. simpl. rewrite lookup_insert_ne by congruence.
    split; [done|]. destruct (users s !! k) as [o|] eqn:Ek; simpl; [|done].
    destruct (decide (o = next h)) as [->|Ho].
    + destruct (Wa _ _ Ek) as [r Hr]. congruence.
    + by rewrite lookup_insert_ne by congruence.
  - intros o r Ho. assert (o ≠ next h) by (intros ->; congruence). simpl. by rewrite lookup_insert_ne.
Qed.

(** Both methods that change something keep the invariants: the map
    refers to allocated records, no two keys share one, and every record
    lies below [next]. *)
Theorem methods_keep_invariants (s : UserService) (h : heap) :
  wfb s h = true → heap_ok h = true →
  (∀ mail uuid id s' h', register mail uuid s h = (id, s', h') → wfb s' h' = true ∧ heap_ok h' = true) ∧
  (∀ key b h', deactivate key s h = Some (b, h') → wfb s h' = true ∧ heap_ok h' = true).
Proof.
  intros W Hh. pose proof (proj1 (heap_ok_spec h) Hh) as Hlt. destruct (wfb_spec s h W) as [Wa Wi].
  assert (Hn : ∀ k o, users s !! k = Some o → o ≠ next h).
  { intros k o Hk ->. destruct (Wa _ _ Hk) as [r Hr]. apply Hlt in Hr. lia. }
  split.
  - intros mail uuid id s' h' E. unfold register in E. injection E as <- <- <-. split.
    + apply wfb_intro; simpl.
      * intros k o Hk. destruct (decide (k = uuid)) as [->|Hne].
        { rewrite lookup_insert_eq in Hk. injection Hk as <-. rewrite lookup_insert_is_Some'. by left. }
        rewrite lookup_insert_ne in Hk by congruence. rewrite lookup_insert_is_Some'. right. exact (Wa _ _ Hk).
      * intros k1 k2 o H1 H2.
        destruct (decide (k1 = uuid)) as [->|Hne1]; destruct (decide (k2 = uuid)) as [->|Hne2]; try done.
        { rewrite lookup_insert_eq in H1. rewrite lookup_insert_ne in H2 by congruence.
          injection H1 as <-. by destruct (Hn _ _ H2). }
        { rewrite lookup_insert_eq in H2. rewrite lookup_insert_ne in H1 by congruence.
          injection H2 as <-. by destruct (Hn _ _ H1). }
        rewrite lookup_insert_ne in H1, H2 by congruence. exact (Wi _ _ _ H1 H2).
    + apply heap_ok_spec. simpl. intros o r Ho. destruct (decide (o = next h)) as [->|Hne]; [lia|].
      rewrite lookup_insert_ne in Ho by congruence. apply Hlt in Ho. lia.
  - intros key b h' E. unfold deactivate in E.
    destruct (users s !! key) as [o|] eqn:Ek; [|injection E as <- <-; done].
    destruct (objs h !! o) as [r|] eqn:Er; [|discriminate]. injection E as <- <-. split.
    + apply wfb_intro; [|exact Wi]. simpl. intros k o' Hk. rewrite lookup_insert_is_Some'.
      right. exact (Wa _ _ Hk).
    + apply heap_ok_spec. simpl. intros o' r' Ho'. destruct (decide (o' = o)) as [->|Hne].
      * exact (Hlt _ _ Er).
      * rewrite lookup_insert_ne in Ho' by congruence. exact (Hlt _ _ Ho').
Qed.

(** [deactivate] twice is [deactivate] once: the second call answers as
    the first and leaves the heap as the first left it. *)
Theorem deactivate_twice (key : string) (s : UserService) (h h1 : heap) (b : bool) :
  deactivate key s h = Some (b, h1) → deactivate key s h1 = Some (b, h1).
Proof.
  unfold deactivate. destruct (users s !! key) as [o|] eqn:Ek; [|congruence].
  destruct (objs h !! o) as [r|] eqn:Er; [|discriminate]. intros E. injection E as <- <-.
  simpl. rewrite lookup_insert_eq. simpl. by rewrite insert_insert_eq.
Qed.

Lemma register_findById_witness :
  ∃ s' h', register "c@example.com" "id-3" two_users.1 two_users.2 = ("id-3", s', h') ∧
    findById "id-3" s' = Some 2%N ∧ objs two_users.2 !! 2%N = None ∧
    view s' h' "id-3" = Some (MkUserRecord "id-3" "c@example.com" true) ∧
    (∀ k, k ≠ "id-3" → findById k s' = findById k two_users.1 ∧ view s' h' k = view two_users.1 two_users.2 k) ∧
    (∀ o r, objs two_users.2 !! o = Some r → objs h' !! o = Some r).
Proof.
  apply (register_findById "c@example.com" "id-3" two_users.1 two_users.2);
    vm_compute; reflexivity.
Defined.

Lemma methods_keep_invariants_witness :
  (∀ mail uuid id s' h', register mail uuid two_users.1 two_users.2 = (id, s', h') →
     wfb s' h' = true ∧ heap_ok h' = true) ∧
  (∀ key b h', deactivate key two_users.1 two_users.2 = Some (b, h') →
     wfb two_users.1 h' = true ∧ heap_ok h' = true).
Proof. apply methods_keep_invariants; vm_compute; reflexivity. Defined.

Lemma deactivate_twice_witness :
  ∃ h1, deactivate "id-1" two_users.1 two_users.2 = Some (true, h1) ∧
        deactivate "id-1" two_users.1 h1 = Some (true, h1).
Proof.
  eexists. split; [vm_compute; reflexivity|].
  apply (deactivate_twice "id-1" two_users.1 two_users.2). vm_compute. reflexivity.
Defined.
End UserServiceMore.

Module EventStoreMore.
Import EventStoreModel EventStoreFacts.

Lemma deref_filter (h : heap) (ty : string) (l : list N) :
  Forall (λ o, is_Some (objs h !! o)) l →
  deref h (List.filter (type_is h ty) l) =
    List.filter (λ e, String.eqb (type e) ty) <$> deref h l.
Proof.
  induction l as [|o l IH]; intros Hl; [done|]. inversion Hl as [|? ? [e He] Hl']; subst.
  assert (T : type_is h ty o = String.eqb (type e) ty) by (unfold type_is; by rewrite He).
  cbn [List.filter]. rewrite T. specialize (IH Hl').
  destruct (String.eqb (type e) ty) eqn:Te; cbn [deref]; rewrite He, IH;
    destruct (deref h l); simpl; by rewrite ?Te.
Qed.

(** [getByType(type)] returns a freshly allocated array: its address
    was in use neither by an array (so not by the store's [events]) nor
    by an event, and the allocation changes no other array and no event.
    The array holds some of the store's references, in their order, and
    what it designates is exactly the store's events of that type, in
    their order. *)
Theorem getByType_filter (s : EventStore) (ty : string) (h : heap) (l : list N) :
  wfb h = true → arrs h !! events s = Some l →
  ∃ a h' l', getByType s ty h = Some (a, h') ∧
    arrs h !! a = None ∧ objs h !! a = None ∧ a ≠ events s ∧
    objs h' = objs h ∧ (∀ b, b ≠ a → arrs h' !! b = arrs h !! b) ∧
    arrs h' !! a = Some l' ∧ l' `sublist_of` l ∧
    events_of_type s ty h = List.filter (λ e, String.eqb (type e) ty) <$> all_events s h.
Proof.
  intros W Hl. apply wfb_wf in W as W'. destruct W' as [Wa Wo].
  assert (He : events_of_type s ty h = List.filter (λ e, String.eqb (type e) ty) <$> all_events s h).
  { rewrite (events_of_type_spec s ty h l Hl), (all_events_spec s h l Hl).
    apply deref_filter. exact (proj2 (Wa _ _ Hl)). }
  assert (Fa : arrs h !! next h = None).
  { destruct (arrs h !! next h) as [l0|] eqn:E; [|done]. apply Wa in E as [E _]. lia. }
  assert (Fo : objs h !! next h = None).
  { destruct (objs h !! next h) as [e0|] eqn:E; [|done]. apply Wo in E. lia. }
  unfold getByType. rewrite Hl. simpl.
  eexists _, _, _. split; [reflexivity|]. split; [done|]. split; [done|].
  split; [intros Heq; rewrite <- Heq in Hl; congruence|]. split; [done|].
  split; [intros b Hb; simpl; by rewrite lookup_insert_ne by congruence|].
  split; [simpl; by rewrite lookup_insert_eq|].
  split; [|exact He]. clear. induction l as [|x l IH]; simpl; [done|].
  destruct (type_is h ty x); [by apply sublist_skip|by apply sublist_cons].
Qed.

Lemma deref_some (h : heap) (l : list N) :
  Forall (λ o, is_Some (objs h !! o)) l → is_Some (deref h l).
Proof.
  induction l as [|o l IH]; intros Hl; [by eexists|]. inversion Hl as [|? ? [e He] Hl']; subst.
  destruct (IH Hl') as [es Hes]. simpl. rewrite He, Hes. by eexists.
Qed.

(** [append(type, payload)] on a store of a well-formed heap: the store
    then holds its events followed by the new one, the heap stays
    well-formed, and what every other array designates (another store's
    events, an array a query returned) is unchanged. *)
Theorem append_spec (s : EventStore) (ty : string) (p : value) (now : Z) (h : heap) :
  wfb h = true → is_Some (arrs h !! events s) →
  ∃ h' pre, append s ty p now h = Some h' ∧ wf h' ∧
    all_events s h = Some pre ∧ all_events s h' = Some (pre ++ [MkDomainEvent ty p now]) ∧
    (∀ a, a ≠ events s → contents h' a = contents h a).
Proof.
  intros W [os Hos]. apply wfb_wf in W. pose proof W as [Wa Wo].
  destruct (deref_some h os (proj2 (Wa _ _ Hos))) as [pre Hpre].
  destruct (append_ok s ty p now h os pre W Hos Hpre) as [h' [E [W' [Hos' Hd']]]].
  exists h', pre. split; [done|]. split; [done|]. split; [by rewrite (all_events_spec s h os Hos)|].
  split; [by rewrite (all_events_spec s h' _ Hos')|].
  intros a Ha. unfold append, alloc_obj in E. cbn [arrs] in E. rewrite Hos in E. simpl in E.
  injection E as <-. unfold contents, set_arr. cbn [arrs objs]. rewrite lookup_insert_ne by congruence.
  destruct (arrs h !! a) as [l|] eqn:Ea; simpl; [|done]. apply deref_ext.
  intros o Ho. cbn [objs]. rewrite lookup_insert_ne; [done|]. intros Heq.
  destruct (Wa _ _ Ea) as [_ Hf]. rewrite Forall_forall in Hf. destruct (Hf _ Ho) as [e He].
  apply Wo in He. rewrite <- Heq in He. lia.
Qed.

Lemma getByType_filter_witness :
  ∃ a h' l', getByType (MkEventStore 0) "UserRegistered" one_event_heap = Some (a, h') ∧
    arrs one_event_heap !! a = None ∧ objs one_event_heap !! a = None ∧ a ≠ events (MkEventStore 0) ∧
    objs h' = objs one_event_heap ∧ (∀ b, b ≠ a → arrs h' !! b = arrs one_event_heap !! b) ∧
    arrs h' !! a = Some l' ∧ l' `sublist_of` [1%N] ∧
    events_of_type (MkEventStore 0) "UserRegistered" one_event_heap =
      List.filter (λ e, String.eqb (type e) "UserRegistered") <$> all_events (MkEventStore 0) one_event_heap.
Proof. apply getByType_filter; vm_compute; reflexivity. Defined.

Lemma append_spec_witness :
  ∃ h' pre, append (MkEventStore 0) "UserDeactivated" (VStr "u-1") 200 one_event_heap = Some h' ∧ wf h' ∧
    all_events (MkEventStore 0) one_event_heap = Some pre ∧
    all_events (MkEventStore 0) h' = Some (pre ++ [MkDomainEvent "UserDeactivated" (VStr "u-1") 200]) ∧
    (∀ a, a ≠ 0%N → contents h' a = contents one_event_heap a).
Proof.
  apply append_spec; [vm_compute; reflexivity|]. eexists. vm_compute. reflexivity.
Defined.
End EventStoreMore.

Module SnapMore.
Import Pipeline Samples PipelineFacts FsMore TreeMore.

(** What the copy statements of [snapshot_files] write. *)
Lemma cp_file_copied (name : string) (dir : path) (f f' : gmap path entry) :
  cp_file name dir f = (0, f') → f' !! (dir ++ [name]) = f !! [name].
Proof.
  unfold cp_file. destruct (f !! [name]) as [[c|]|] eqn:Hc; try discriminate.
  destruct (is_dir f dir); [|discriminate]. intros H; injection H as <-.
  by rewrite lookup_insert_eq.
Qed.

Lemma guarded_cp_file_copied (name : string) (dir : path) (w : world) (f' : gmap path entry) :
  exec (Step (fun w => if is_file (w_fs w) [name]
                       then lift (cp_file name dir) w else (0, w)) []) w = (0, set_fs w f') →
  is_file (w_fs w) [name] = true → f' !! (dir ++ [name]) = w_fs w !! [name].
Proof.
  cbn [exec]. intros E Hn. rewrite Hn in E. unfold lift in E.
  destruct (cp_file name dir (w_fs w)) as [c f''] eqn:Ec. injection E as -> ->. by apply cp_file_copied.
Qed.

Lemma package_copied (dir : path) (w w' : world) :
  exec (Step (lift (cp_file "package.json" dir)) []) w = (0, w') →
  w_fs w' !! (dir ++ ["package.json"]) = w_fs w !! ["package.json"].
Proof.
  cbn [exec]. unfold lift. destruct (cp_file "package.json" dir (w_fs w)) as [c f''] eqn:Ec.
  intros E. injection E as -> <-. by apply cp_file_copied.
Qed.

Lemma guarded_cp_r_copied (name : string) (dir : path) (w : world) (f' : gmap path entry) :
  exec (Step (fun w => if is_dir (w_fs w) [name]
                       then lift (cp_r name (dir ++ [name])) w else (0, w)) []) w = (0, set_fs w f') →
  is_dir (w_fs w) [name] = true → is_dir (w_fs w) (dir ++ [name]) = false →
  ∀ r, f' !! (dir ++ name :: r) =
       match w_fs w !! (name :: r) with Some e => Some e | None => w_fs w !! (dir ++ name :: r) end.
Proof.
  cbn [exec]. intros E Hn Hd r. rewrite Hn in E. unfold lift, cp_r in E.
  unfold is_dir in Hn. destruct (w_fs w !! [name]) as [[]|]; try discriminate.
  rewrite Hd in E. injection E as <-.
  pose proof (copy_tree_lookup [name] (dir ++ [name]) r (w_fs w)) as L.
  rewrite <- app_assoc in L. exact L.
Qed.

Lemma concat_slash_cons (a b : string) (l : list string) :
  String.concat "/" (a :: b :: l) = a +:+ "/" +:+ String.concat "/" (b :: l).
Proof. reflexivity. Qed.

(** Nothing below [scripts/outputs/] is listed in [tree.txt]. *)
Lemma out_not_listed (x : string) (r : path) : listed (render (OUT ++ x :: r)) = false.
Proof.
  destruct (listed (render (OUT ++ x :: r))) eqn:E; [|done]. exfalso.
  apply (listed_not_under _ E "./scripts/outputs/" ltac:(simpl; tauto) (String.concat "/" (x :: r))).
  unfold render, OUT. cbn [app]. rewrite !concat_slash_cons, <- !string_app_assoc. reflexivity.
Qed.

Lemma out_prefix_sub (label a : string) (k : path) :
  ¬ OUT `prefix_of` k → ¬ (snap_dir label ++ [a]) `prefix_of` k ∧ k ≠ snap_dir label ++ [a].
Proof.
  intros Hk. assert (Ho : OUT `prefix_of` snap_dir label ++ [a]).
  { unfold snap_dir, SNAPS. rewrite <- !app_assoc. by apply prefix_app_r. }
  split.
  - intros Hp. apply Hk. by transitivity (snap_dir label ++ [a]).
  - intros ->. by apply Hk.
Qed.

(** [snapshot_files label] into a fresh directory whose ancestors are not
    regular files, with [package.json] present, completes.  The snapshot
    holds copies of [package.json], of [delivery-process.config.ts] and
    [tsconfig.json] when they are regular files, and of the [src/] and
    [docs-generated/] trees when they are directories; its [tree.txt] is
    the listing of the project as it was before the snapshot.  Outside
    [scripts/outputs/] nothing changes but [scripts/] itself. *)
Theorem snapshot_copies (label : string) (w : world) :
  is_file (w_fs w) SCRIPT_DIR = false → is_file (w_fs w) OUT = false →
  is_file (w_fs w) SNAPS = false →
  (∀ k, snap_dir label `prefix_of` k → w_fs w !! k = None) →
  is_file (w_fs w) ["package.json"] = true →
  ∃ w', run_steps (snapshot_files label) w = Done w' ∧
    w_fs w' !! (snap_dir label ++ ["package.json"]) = w_fs w !! ["package.json"] ∧
    (is_file (w_fs w) ["delivery-process.config.ts"] = true →
       w_fs w' !! (snap_dir label ++ ["delivery-process.config.ts"])
       = w_fs w !! ["delivery-process.config.ts"]) ∧
    (is_file (w_fs w) ["tsconfig.json"] = true →
       w_fs w' !! (snap_dir label ++ ["tsconfig.json"]) = w_fs w !! ["tsconfig.json"]) ∧
    (is_dir (w_fs w) ["src"] = true →
       ∀ r, w_fs w' !! (snap_dir label ++ "src" :: r) = w_fs w !! ("src" :: r)) ∧
    (is_dir (w_fs w) ["docs-generated"] = true →
       ∀ r, w_fs w' !! (snap_dir label ++ "docs-generated" :: r) = w_fs w !! ("docs-generated" :: r)) ∧
    w_fs w' !! (snap_dir label ++ ["tree.txt"]) = Some (File (tree_listing (w_xfrm w) (w_fs w))) ∧
    (∀ k, ¬ OUT `prefix_of` k → k ≠ SCRIPT_DIR → w_fs w' !! k = w_fs w !! k).
Proof.
  intros H1 H2 H3 Hfr Hpj.
  assert (H4 : is_file (w_fs w) (snap_dir label) = false).
  { unfold is_file. by rewrite Hfr. }
  set (F := w_fs w) in *.
  set (f1 := <[snap_dir label := Dir]> (<[SNAPS := Dir]> (<[OUT := Dir]> (<[SCRIPT_DIR := Dir]> F)))).
  assert (Hd1 : f1 !! snap_dir label = Some Dir) by (unfold f1; apply lookup_insert_eq).
  assert (Hs1 : ∀ x r, f1 !! (snap_dir label ++ x :: r) = None).
  { intros x r. unfold f1. rewrite !lookup_insert_ne.
    - apply Hfr. by apply prefix_app_r.
    - intros H. apply (f_equal length) in H. rewrite length_app in H. simpl in H. lia.
    - intros H. apply (f_equal length) in H. rewrite length_app in H. simpl in H. lia.
    - intros H. apply (f_equal length) in H. rewrite length_app in H. simpl in H. lia.
    - intros H. apply (f_equal length) in H. rewrite length_app in H. simpl in H. lia. }
  assert (G1 : ∀ k, ¬ OUT `prefix_of` k → k ≠ SCRIPT_DIR → f1 !! k = F !! k).
  { intros k Hk Hs. unfold f1. rewrite !lookup_insert_ne; try done;
    intros <-; apply Hk; unfold snap_dir, SNAPS; rewrite <- ?app_assoc;
    first [done | by apply prefix_app_r]. }
  assert (O1 : f1 !! OUT = Some Dir ∧ f1 !! SCRIPT_DIR = Some Dir).
  { unfold f1. split; rewrite !lookup_insert_ne by (unfold snap_dir, SNAPS, OUT, SCRIPT_DIR; path_neq);
    apply lookup_insert_eq. }
  unfold snapshot_files. cbv zeta.
  rewrite (run_steps_cons_ok _ _ _ (set_fs w f1)); cycle 1.
  { cbn [exec]. unfold lift. rewrite mkdir_snap_dir by done. reflexivity. }
  set (w1 := add_log (set_fs w f1) []).
  assert (Hw1 : w_fs w1 = f1) by reflexivity.
  (* cp -r src/ *)
  destruct (guarded_cp_r_ok "src" (snap_dir label) w1) as [f2 [E2 [Fr2 Sk2]]].
  pose proof (guarded_cp_r_copied _ _ _ _ E2) as C2.
  rewrite Hw1 in Fr2, Sk2, C2.
  rewrite (run_steps_cons_ok _ _ _ _ E2).
  set (w2 := add_log (set_fs w1 f2) []).
  assert (Hw2 : w_fs w2 = f2) by reflexivity.
  assert (G2 : ∀ k, ¬ OUT `prefix_of` k → k ≠ SCRIPT_DIR → f2 !! k = F !! k).
  { intros k Hk Hs. rewrite Fr2 by apply (out_prefix_sub _ _ _ Hk). by apply G1. }
  assert (Hd2 : is_dir (w_fs w2) (snap_dir label) = true).
  { unfold is_dir. rewrite Hw2, Fr2 by snap_frame. by rewrite Hd1. }
  (* [ -f delivery-process.config.ts ] && cp *)
  destruct (guarded_cp_file_ok "delivery-process.config.ts" (snap_dir label) w2 Hd2)
    as [f3 [E3 [Fr3 Sk3]]].
  pose proof (guarded_cp_file_copied _ _ _ _ E3) as C3.
  rewrite Hw2 in Fr3, Sk3, Hd2, C3.
  rewrite (run_steps_cons_ok _ _ _ _ E3).
  set (w3 := add_log (set_fs w2 f3) []).
  assert (Hw3 : w_fs w3 = f3) by reflexivity.
  assert (G3 : ∀ k, ¬ OUT `prefix_of` k → k ≠ SCRIPT_DIR → f3 !! k = F !! k).
  { intros k Hk Hs. rewrite Fr3 by apply (out_prefix_sub _ _ _ Hk). by apply G2. }
  assert (Hd3 : is_dir (w_fs w3) (snap_dir label) = true).
  { unfold is_dir in *. by rewrite Hw3, Fr3 by snap_frame. }
  (* [ -f tsconfig.json ] && cp *)
  destruct (guarded_cp_file_ok "tsconfig.json" (snap_dir label) w3 Hd3)
    as [f4 [E4 [Fr4 Sk4]]].
  pose proof (guarded_cp_file_copied _ _ _ _ E4) as C4.
  rewrite Hw3 in Fr4, Sk4, Hd3, C4.
  rewrite (run_steps_cons_ok _ _ _ _ E4).
  set (w4 := add_log (set_fs w3 f4) []).
  assert (Hw4 : w_fs w4 = f4) by reflexivity.
  assert (G4 : ∀ k, ¬ OUT `prefix_of` k → k ≠ SCRIPT_DIR → f4 !! k = F !! k).
  { intros k Hk Hs. rewrite Fr4 by apply (out_prefix_sub _ _ _ Hk). by apply G3. }
  assert (Hd4 : is_dir (w_fs w4) (snap_dir label) = true).
  { unfold is_dir in *. by rewrite Hw4, Fr4 by snap_frame. }
  (* cp package.json *)
  pose proof (cp_package_ok (snap_dir label) w4 Hd4) as P5.
  revert P5.
  case_eq (exec (Step (lift (cp_file "package.json" (snap_dir label))) []) w4).
  intros c5 w5 E5.
  assert (X5 : w_xfrm w5 = w_xfrm w).
  { revert E5. cbn [exec]. unfold lift. destruct (cp_file _ _ _) as [? ?].
    intros E5. injection E5 as _ <-. reflexivity. }
  assert (Hpk : is_file (w_fs w4) ["package.json"] = is_file F ["package.json"]).
  { unfold is_file. rewrite Hw4. rewrite G4; [done| |path_neq].
    intros Hp. apply prefix_length in Hp. simpl in Hp. lia. }
  destruct (Z.eq_dec c5 0) as [->|Hc5]; cycle 1.
  { destruct c5; [done| |]; intros [Hp _]; rewrite Hpk in Hp; congruence. }
  intros [Hp5 [_ Fr5]]. rewrite Hw4 in Fr5.
  pose proof (package_copied _ _ _ E5) as C5. rewrite Hw4 in C5.
  rewrite (run_steps_cons_ok _ _ _ _ E5).
  set (w5' := add_log w5 []).
  set (f5 := w_fs w5) in *.
  assert (Hw5 : w_fs w5' = f5) by reflexivity.
  assert (G5 : ∀ k, ¬ OUT `prefix_of` k → k ≠ SCRIPT_DIR → f5 !! k = F !! k).
  { intros k Hk Hs. rewrite Fr5 by apply (out_prefix_sub _ _ _ Hk). by apply G4. }
  assert (Hd5 : f5 !! snap_dir label = Some Dir).
  { rewrite Fr5 by snap_frame. unfold is_dir in Hd4. rewrite Hw4 in Hd4.
    by destruct (f4 !! snap_dir label) as [[]|]. }
  (* cp -r docs-generated/ *)
  destruct (guarded_cp_r_ok "docs-generated" (snap_dir label) w5') as [f6 [E6 [Fr6 Sk6]]].
  pose proof (guarded_cp_r_copied _ _ _ _ E6) as C6.
  rewrite Hw5 in Fr6, Sk6, C6.
  rewrite (run_steps_cons_ok _ _ _ _ E6).
  set (w6 := add_log (set_fs w5' f6) []).
  assert (Hw6 : w_fs w6 = f6) by reflexivity.
  assert (G6 : ∀ k, ¬ OUT `prefix_of` k → k ≠ SCRIPT_DIR → f6 !! k = F !! k).
  { intros k Hk Hs. rewrite Fr6 by apply (out_prefix_sub _ _ _ Hk). by apply G5. }
  (* the tree listing *)
  assert (Hd6 : is_dir (w_fs w6) (snap_dir label) = true).
  { unfold is_dir. rewrite Hw6, Fr6 by snap_frame. by rewrite Hd5. }
  assert (Ht6 : is_dir (w_fs w6) (snap_dir label ++ ["tree.txt"]) = false).
  { unfold is_dir. rewrite Hw6, Fr6, Fr5, Fr4, Fr3, Fr2 by snap_frame. by rewrite Hs1. }
  rewrite (run_steps_cons_ok _ _ _ _ (tree_step_ok label w6 Hd6 Ht6)).
  cbn [run_steps add_log set_fs w_fs]. rewrite Hw6.
  eexists. split; [reflexivity|]. cbn [w_fs add_log set_fs].
  assert (Top : ∀ x r, x ≠ "scripts" → ¬ OUT `prefix_of` (x :: r) ∧ x :: r ≠ SCRIPT_DIR).
  { intros x r Hx. split; [intros Hp; apply prefix_cons_inv_1 in Hp|intros Hp; injection Hp]; done. }
  assert (Short : ∀ a k, (length k ≤ 2)%nat → ¬ (snap_dir label ++ [a]) `prefix_of` k).
  { intros a k Hl. apply sub_not_prefix_short. simpl. lia. }
  split; [|split; [|split; [|split; [|split; [|split]]]]].
  - rewrite lookup_insert_ne, Fr6 by snap_frame. rewrite C5.
    by apply G4; apply Top.
  - intros Hc. rewrite lookup_insert_ne, Fr6, Fr5, Fr4 by snap_frame.
    destruct (Top "delivery-process.config.ts" [] ltac:(done)) as [Ta Tb].
    rewrite C3; [by apply G2|]. unfold is_file in *. by rewrite G2.
  - intros Hc. rewrite lookup_insert_ne, Fr6, Fr5 by snap_frame.
    destruct (Top "tsconfig.json" [] ltac:(done)) as [Ta Tb].
    rewrite C4; [by apply G3|]. unfold is_file in *. by rewrite G3.
  - intros Hsrc r. rewrite lookup_insert_ne, Fr6, Fr5, Fr4, Fr3 by snap_frame.
    destruct (Top "src" [] ltac:(done)) as [Ta Tb].
    destruct (Top "src" r ltac:(done)) as [Ra Rb].
    rewrite C2; cycle 1.
    { unfold is_dir in *. by rewrite G1. }
    { unfold is_dir. by rewrite Hs1. }
    rewrite G1, Hs1 by done.
    by destruct (F !! ("src" :: r)).
  - intros Hdg r. rewrite lookup_insert_ne by snap_frame.
    destruct (Top "docs-generated" [] ltac:(done)) as [Ta Tb].
    destruct (Top "docs-generated" r ltac:(done)) as [Ra Rb].
    rewrite C6; cycle 1.
    { unfold is_dir in *. by rewrite G5. }
    { unfold is_dir. rewrite Fr5, Fr4, Fr3, Fr2 by snap_frame. by rewrite Hs1. }
    rewrite G5 by done. rewrite Fr5, Fr4, Fr3, Fr2, Hs1 by snap_frame.
    by destruct (F !! ("docs-generated" :: r)).
  - rewrite lookup_insert_eq. do 2 f_equal. change (w_xfrm w6) with (w_xfrm w5). rewrite X5.
    apply tree_listing_ext. intros k Hl.
    destruct (decide (OUT `prefix_of` k)) as [[m ->]|Hk].
    + destruct m as [|x r].
      * rewrite app_nil_r. unfold is_file in *.
        rewrite Fr6, Fr5, Fr4, Fr3, Fr2 by (first [apply Short; simpl; lia | let Heq := fresh in intros Heq; apply (f_equal length) in Heq; rewrite length_app in Heq; simpl in Heq; lia]). by rewrite (proj1 O1).
      * by rewrite out_not_listed in Hl.
    + destruct (decide (k = SCRIPT_DIR)) as [->|Hs].
      * unfold is_file in *.
        rewrite Fr6, Fr5, Fr4, Fr3, Fr2 by (first [apply Short; simpl; lia | let Heq := fresh in intros Heq; apply (f_equal length) in Heq; rewrite length_app in Heq; simpl in Heq; lia]). by rewrite (proj2 O1).
      * unfold is_file. by rewrite G6.
  - intros k Hk Hs. rewrite lookup_insert_ne; [by apply G6|].
    intros Heq. by apply (proj2 (out_prefix_sub label "tree.txt" k Hk)).
Qed.

Lemma snapshot_copies_witness :
  ∃ w', run_steps (snapshot_files "01-project-setup") (world_of tree_fs) = Done w' ∧
    w_fs w' !! (snap_dir "01-project-setup" ++ ["package.json"]) = tree_fs !! ["package.json"] ∧
    (is_file tree_fs ["delivery-process.config.ts"] = true →
       w_fs w' !! (snap_dir "01-project-setup" ++ ["delivery-process.config.ts"])
       = tree_fs !! ["delivery-process.config.ts"]) ∧
    (is_file tree_fs ["tsconfig.json"] = true →
       w_fs w' !! (snap_dir "01-project-setup" ++ ["tsconfig.json"]) = tree_fs !! ["tsconfig.json"]) ∧
    (is_dir tree_fs ["src"] = true →
       ∀ r, w_fs w' !! (snap_dir "01-project-setup" ++ "src" :: r) = tree_fs !! ("src" :: r)) ∧
    (is_dir tree_fs ["docs-generated"] = true →
       ∀ r, w_fs w' !! (snap_dir "01-project-setup" ++ "docs-generated" :: r)
            = tree_fs !! ("docs-generated" :: r)) ∧
    w_fs w' !! (snap_dir "01-project-setup" ++ ["tree.txt"]) = Some (File (tree_listing (λ s, s) tree_fs)) ∧
    (∀ k, ¬ OUT `prefix_of` k → k ≠ SCRIPT_DIR → w_fs w' !! k = tree_fs !! k).
Proof.
  apply (snapshot_copies "01-project-setup" (world_of tree_fs)); [vm_compute; reflexivity.. | |].
  - apply fresh_under. vm_compute. reflexivity.
  - vm_compute. reflexivity.
Defined.

End SnapMore.
